(** * Aim trainer: shot resolution, target kinematics and miss analysis

    A shallow embedding of [src/components/Game3D.tsx] (the game controller:
    [spawnTarget], the [useFrame] game loop, [handleShoot], the timer's
    [onFinish] call) and, from [src/unnamed/part_000], of the results
    screen (the [analysis] memo), of the type declarations and of the
    application shell ([handleGameFinish]), with the properties the
    specification states about them.

    Numbers.  Every JavaScript [number] of the source is a value of an
    abstract carrier [num] with the operations the source applies to it
    (class [JsNumber]).  What depends only on the control flow of the
    program is proved for every carrier; what depends on the laws of
    arithmetic is proved for the carrier of exact real numbers
    ([R_number]), where rounding, NaN and the infinities do not exist.
    Counters that the source only ever increments from zero, and array
    lengths, are natural numbers. *)

From Stdlib Require Import List Bool Arith ZArith QArith String Lia.
From Stdlib Require Import Reals Lra Qreals.
From Stdlib Require Floats Uint63.
Import ListNotations.

Set Implicit Arguments.

(** ** The JavaScript [number] interface *)

Declare Scope js_scope.
Delimit Scope js_scope with js.

Class JsNumber (num : Type) : Type := {
  lit : Q -> num;               (* a numeric literal of the source text *)
  of_nat : nat -> num;          (* a counter or a length used as a number *)
  add : num -> num -> num;
  sub : num -> num -> num;
  mul : num -> num -> num;
  div : num -> num -> num;
  neg : num -> num;             (* unary minus *)
  lt : num -> num -> bool;      (* a < b;  a > b is  lt b a *)
  le : num -> num -> bool;      (* a <= b;  a >= b is  le b a *)
  eq : num -> num -> bool;      (* a === b *)
  Math_sqrt : num -> num;
  Math_acos : num -> num;
  Math_abs : num -> num;
  Math_PI : num
}.

Notation "a + b" := (add a b) : js_scope.
Notation "a - b" := (sub a b) : js_scope.
Notation "a * b" := (mul a b) : js_scope.
Notation "a / b" := (div a b) : js_scope.
Notation "- a" := (neg a) : js_scope.
Notation "a <? b" := (lt a b) (at level 70) : js_scope.
Notation "a >? b" := (lt b a) (at level 70) : js_scope.
Notation "a >=? b" := (le b a) (at level 70) : js_scope.
Notation "a === b" := (eq a b) (at level 70) : js_scope.

(** Exact real numbers as a carrier. *)

Definition Rltb (a b : R) : bool := if Rlt_dec a b then true else false.

Definition Rleb (a b : R) : bool := if Rle_dec a b then true else false.

Definition Reqb (a b : R) : bool := if Req_dec_T a b then true else false.

#[export] Instance R_number : JsNumber R := {
  lit := Q2R;
  of_nat := INR;
  add := Rplus;
  sub := Rminus;
  mul := Rmult;
  div := Rdiv;
  neg := Ropp;
  lt := Rltb;
  le := Rleb;
  eq := Reqb;
  Math_sqrt := sqrt;
  Math_acos := acos;
  Math_abs := Rabs;
  Math_PI := PI
}.

(** IEEE 754 binary64 numbers as a carrier.  A literal is the double
    nearest to its decimal value, which is what the correctly rounded
    quotient of its numerator and denominator gives; [Math.acos], which
    the language leaves to the implementation, is a parameter. *)

Definition float_of_Z (z : Z) : PrimFloat.float :=
  match z with
  | Zneg p => PrimFloat.opp (PrimFloat.of_uint63 (Uint63.of_Z (Zpos p)))
  | _ => PrimFloat.of_uint63 (Uint63.of_Z z)
  end.

Definition float_lit (q : Q) : PrimFloat.float :=
  PrimFloat.div (float_of_Z (Qnum q)) (float_of_Z (Zpos (Qden q))).

Definition float_number (acos : PrimFloat.float -> PrimFloat.float)
  : JsNumber PrimFloat.float := {|
  lit := float_lit;
  of_nat := fun n => float_of_Z (Z.of_nat n);
  add := PrimFloat.add;
  sub := PrimFloat.sub;
  mul := PrimFloat.mul;
  div := PrimFloat.div;
  neg := PrimFloat.opp;
  lt := PrimFloat.ltb;
  le := PrimFloat.leb;
  eq := PrimFloat.eqb;
  Math_sqrt := PrimFloat.sqrt;
  Math_acos := acos;
  Math_abs := PrimFloat.abs;
  Math_PI := float_lit 3.141592653589793
|}.

(** ** types.ts *)

Inductive ScenarioType : Type := GRIDSHOT | TRACKING | FLICKING.

Definition ScenarioType_eqb (a b : ScenarioType) : bool :=
  match a, b with
  | GRIDSHOT, GRIDSHOT | TRACKING, TRACKING | FLICKING, FLICKING => true
  | _, _ => false
  end.

Section Program.

Context {num : Type} {N : JsNumber num}.
Local Open Scope js_scope.

(** A [[number, number, number]] tuple and a [THREE.Vector3] alike. *)
Record Vec3 : Type := vec3 { vec_x : num; vec_y : num; vec_z : num }.

Record TargetEntity : Type := mkTarget {
  id : string;
  position : Vec3;
  active : bool;
  velocity : Vec3;
  radius : num
}.

Record ShotData : Type := mkShot {
  timestamp : num;
  hit : bool;
  targetId : option string;
  relativeX : option num;
  relativeY : option num;
  distanceFromCenter : option num;
  targetVelocityX : option num
}.

Record SessionStats : Type := mkStats {
  stats_score : nat;
  stats_shotsFired : nat;
  stats_shotsHit : nat;
  stats_accuracy : num;
  stats_missData : list ShotData;
  stats_scenario : ScenarioType;
  stats_sensitivity : num
}.

(** ** The parts of three.js the controller calls

    [Vector3], [Plane] and [Ray] as three.js defines the methods used by
    [handleShoot]. *)

Definition v_sub (a b : Vec3) : Vec3 :=
  vec3 (vec_x a - vec_x b) (vec_y a - vec_y b) (vec_z a - vec_z b).

Definition v_add (a b : Vec3) : Vec3 :=
  vec3 (vec_x a + vec_x b) (vec_y a + vec_y b) (vec_z a + vec_z b).

Definition v_multiplyScalar (a : Vec3) (s : num) : Vec3 :=
  vec3 (vec_x a * s) (vec_y a * s) (vec_z a * s).

Definition v_dot (a b : Vec3) : num :=
  vec_x a * vec_x b + vec_y a * vec_y b + vec_z a * vec_z b.

Definition v_lengthSq (a : Vec3) : num := v_dot a a.

Definition v_length (a : Vec3) : num := Math_sqrt (v_lengthSq a).

Definition v_distanceTo (a b : Vec3) : num := v_length (v_sub a b).

(** [normalize] is [divideScalar(length() || 1)]. *)
Definition v_normalize (a : Vec3) : Vec3 :=
  let l := v_length a in
  let d := if l === lit 0 then lit 1 else l in
  v_multiplyScalar a (lit 1 / d).

Definition Math_min (a b : num) : num := if a <? b then a else b.

Definition Math_max (a b : num) : num := if a <? b then b else a.

Definition clamp (v lo hi : num) : num := Math_max lo (Math_min hi v).

Definition v_angleTo (a b : Vec3) : num :=
  let denominator := Math_sqrt (v_lengthSq a * v_lengthSq b) in
  if denominator === lit 0 then Math_PI / lit 2
  else Math_acos (clamp (v_dot a b / denominator) (lit (-1)) (lit 1)).

Record Plane : Type := mkPlane { normal : Vec3; constant : num }.

Definition setFromNormalAndCoplanarPoint (n p : Vec3) : Plane :=
  mkPlane n (- v_dot p n).

Definition distanceToPoint (pl : Plane) (p : Vec3) : num :=
  v_dot (normal pl) p + constant pl.

Record Ray : Type := mkRay { origin : Vec3; direction : Vec3 }.

(** [null] is [None]. *)
Definition distanceToPlane (r : Ray) (pl : Plane) : option num :=
  let denominator := v_dot (normal pl) (direction r) in
  if denominator === lit 0 then
    if distanceToPoint pl (origin r) === lit 0 then Some (lit 0) else None
  else
    let t := - (v_dot (origin r) (normal pl) + constant pl) / denominator in
    if t >=? lit 0 then Some t else None.

Definition ray_at (r : Ray) (t : num) : Vec3 :=
  v_add (origin r) (v_multiplyScalar (direction r) t).

(** [ray.intersectPlane(plane, target)]: the value returned, and the
    vector [target] as the call leaves it (written only on success). *)
Definition intersectPlane (r : Ray) (pl : Plane) (target : Vec3)
  : option Vec3 * Vec3 :=
  match distanceToPlane r pl with
  | None => (None, target)
  | Some t => (Some (ray_at r t), ray_at r t)
  end.

(** ** The runtime of the page

    [Math.random] as the sequence of the values its successive calls
    return, and [Number.prototype.toString(36)]. *)

Record Runtime : Type := mkRuntime {
  random_value : nat -> num;
  toString36 : num -> string
}.

Variable rt : Runtime.

(** Code that calls [Math.random]: the state is the number of calls made
    so far. *)
Definition Rnd (A : Type) : Type := nat -> A * nat.

Definition ret {A : Type} (a : A) : Rnd A := fun n => (a, n).

Definition bind {A B : Type} (m : Rnd A) (k : A -> Rnd B) : Rnd B :=
  fun n => let (a, n') := m n in k a n'.

Notation "x <- m ;; k" := (bind m (fun x => k))
  (at level 61, m at next level, right associativity).

Definition Math_random : Rnd num := fun n => (random_value rt n, S n).

(** ** Game3D.tsx: the controller *)

Record Game3DProps : Type := mkProps {
  scenario : ScenarioType;
  sensitivity : num
}.

Variable props : Game3DProps.

(** [spawnTarget(currentList, fixedPos?)]: the new target, and
    [currentList] after the [push]. *)
Definition spawnTarget (currentList : list TargetEntity) (fixedPos : option Vec3)
  : Rnd (TargetEntity * list TargetEntity) :=
  r <- Math_random ;;
  let id := substring 2 9 (toString36 rt r) in
  x <- match fixedPos with
       | Some p => ret (vec_x p)
       | None => r <- Math_random ;; ret ((r - lit 0.5) * lit 10)
       end ;;
  y <- match fixedPos with
       | Some p => ret (vec_y p)
       | None => r <- Math_random ;; ret (lit 1 + r * lit 3)
       end ;;
  z <- match fixedPos with
       | Some p => ret (vec_z p)
       | None => r <- Math_random ;; ret (lit (-8) - r * lit 5)
       end ;;
  velocity <- (if ScenarioType_eqb (scenario props) TRACKING
               then r1 <- Math_random ;;
                    r2 <- Math_random ;;
                    ret (vec3 ((if r1 >? lit 0.5 then lit 1 else lit (-1))
                               * (lit 2 + r2 * lit 2))
                              (lit 0) (lit 0))
               else ret (vec3 (lit 0) (lit 0) (lit 0))) ;;
  let newTarget :=
    mkTarget id (vec3 x y z) true velocity
             (if ScenarioType_eqb (scenario props) FLICKING
              then lit 0.3 else lit 0.5) in
  ret (newTarget, currentList ++ [newTarget]).

(** The controller's mutable state: the [targets] state (which
    [targetsRef.current] mirrors), the three refs, and the calls of
    [Math.random] made so far.

    The state and the ref are one field here.  In the component the ref
    is copied from the state by an effect, after the commit: between a
    [setTargets] and that commit a click still reads the targets of the
    commit before, and right after the mount it reads the empty list.
    These windows are outside the model. *)
Record Controller : Type := mkController {
  targets : list TargetEntity;
  scoreRef : nat;
  shotsFiredRef : nat;
  shotDataRef : list ShotData;
  randomCalls : nat
}.

(** [for (let i = 0; i < 3; i++) spawnTarget(initialTargets)] *)
Fixpoint spawnTargets (k : nat) (currentList : list TargetEntity)
  : Rnd (list TargetEntity) :=
  match k with
  | O => ret currentList
  | S k' => p <- spawnTarget currentList None ;; spawnTargets k' (snd p)
  end.

(** The mount effect, up to the timer. *)
Definition mount : Controller :=
  let initial :=
    match scenario props with
    | GRIDSHOT => spawnTargets 3 []
    | TRACKING =>
        p <- spawnTarget [] (Some (vec3 (lit 0) (lit 1.5) (lit (-10)))) ;;
        ret (snd p)
    | FLICKING => p <- spawnTarget [] None ;; ret (snd p)
    end in
  let (initialTargets, n) := initial 0%nat in
  mkController initialTargets 0 0 [] n.

(** The game loop ([useFrame]): the function mapped over the targets. *)
Definition bounce (delta : num) (t : TargetEntity) : TargetEntity :=
  let newX := vec_x (position t) + vec_x (velocity t) * delta in
  let velX := vec_x (velocity t) in
  let '(velX, newX) :=
    if (newX >? lit 8) || (newX <? lit (-8))
    then (velX * lit (-1), vec_x (position t) + (velX * lit (-1)) * delta)
    else (velX, newX) in
  mkTarget (id t)
           (vec3 newX (vec_y (position t)) (vec_z (position t)))
           (active t)
           (vec3 velX (vec_y (velocity t)) (vec_z (velocity t)))
           (radius t).

Definition useFrame (delta : num) (c : Controller) : Controller :=
  if ScenarioType_eqb (scenario props) TRACKING
  then mkController (map (bounce delta) (targets c)) (scoreRef c)
                    (shotsFiredRef c) (shotDataRef c) (randomCalls c)
  else c.

(** What the camera and the raycaster hold when the mouse button goes
    down: [camera.position], [camera.getWorldDirection], the images of
    the X and Y axes under [camera.quaternion], [raycaster.ray] after
    [setFromCamera], and the value of [Date.now()].

    The record keeps the ray apart from the camera, as [handleShoot]
    reads them; [setFromCamera] at the centre of the screen makes it the
    ray that starts at the camera and runs along the view direction. *)
Record Aim : Type := mkAim {
  camera_position : Vec3;
  camera_worldDirection : Vec3;
  camera_right : Vec3;
  camera_up : Vec3;
  raycaster_ray : Ray;
  now : num
}.

(** The locals that the [forEach] of [handleShoot] updates.
    [minAngularDist] starts at [Infinity], which is [None] here: every
    angle [angleTo] returns is below it, unless it is NaN (which takes an
    infinite or NaN coordinate, and is outside the model). *)
Record Scan : Type := mkScan {
  hitFound : bool;
  hitTargetId : string;
  closestTarget : option TargetEntity;
  minAngularDist : option num
}.

Definition scan_start : Scan := mkScan false EmptyString None None.

(** The sphere intersection check of the loop body. *)
Definition hitTest (a : Aim) (target : TargetEntity) : bool :=
  let rayDir := camera_worldDirection a in
  let targetPos := position target in
  let toTarget := v_sub targetPos (camera_position a) in
  let projectionLength := v_dot toTarget rayDir in
  let closestPointOnRay :=
    v_add (camera_position a) (v_multiplyScalar rayDir projectionLength) in
  let distToCenter := v_distanceTo closestPointOnRay targetPos in
  distToCenter <? radius target.

(** [rayDir.angleTo(toTarget.normalize())] *)
Definition angleOf (a : Aim) (target : TargetEntity) : num :=
  let toTarget := v_sub (position target) (camera_position a) in
  v_angleTo (camera_worldDirection a) (v_normalize toTarget).

(** The body of [activeTargets.forEach]. *)
Definition scan_step (a : Aim) (s : Scan) (target : TargetEntity) : Scan :=
  let s1 :=
    if hitTest a target
    then mkScan true (id target) (closestTarget s) (minAngularDist s)
    else s in
  let angle := angleOf a target in
  if match minAngularDist s1 with
     | None => true
     | Some m => angle <? m
     end
  then mkScan (hitFound s1) (hitTargetId s1) (Some target) (Some angle)
  else s1.

Definition scan (a : Aim) (activeTargets : list TargetEntity) : Scan :=
  fold_left (scan_step a) activeTargets scan_start.

(** A JavaScript object in a condition: every object is truthy. *)
Definition truthy_object (A : Type) (o : A) : bool := true.

(** The record pushed for a miss next to [ct], the intended target, or
    no record. *)
Definition missRecord (a : Aim) (ct : TargetEntity) : option ShotData :=
  let targetPos := position ct in
  let plane := setFromNormalAndCoplanarPoint (camera_worldDirection a) targetPos in
  let intersection :=
    snd (intersectPlane (raycaster_ray a) plane (vec3 (lit 0) (lit 0) (lit 0))) in
  if truthy_object intersection then
    let diff := v_sub intersection targetPos in
    let relativeX := v_dot diff (camera_right a) in
    let relativeY := v_dot diff (camera_up a) in
    Some (mkShot (now a) false None (Some relativeX) (Some relativeY)
                 (Some (v_length diff)) (Some (vec_x (velocity ct))))
  else None.

Definition push (A : Type) (l : list A) (o : option A) : list A :=
  match o with
  | Some x => l ++ [x]
  | None => l
  end.

Definition handleShoot (a : Aim) (c : Controller) : Controller :=
  let shotsFired := S (shotsFiredRef c) in
  let activeTargets := targets c in
  let s := scan a activeTargets in
  if hitFound s then
    let shotData :=
      push (shotDataRef c)
           (Some (mkShot (now a) true (Some (hitTargetId s)) None None None None)) in
    let newTargets :=
      filter (fun t => negb (String.eqb (id t) (hitTargetId s))) activeTargets in
    let (spawned, n) := spawnTarget newTargets None (randomCalls c) in
    mkController (snd spawned) (S (scoreRef c)) shotsFired shotData n
  else
    let shotData :=
      match closestTarget s with
      | Some ct => push (shotDataRef c) (missRecord a ct)
      | None =>
          push (shotDataRef c)
               (Some (mkShot (now a) false None None None None None))
      end in
    mkController activeTargets (scoreRef c) shotsFired shotData (randomCalls c).

(** A session: frames and mouse clicks after the mount. *)
Inductive Event : Type :=
| Frame (delta : num)
| MouseDown (a : Aim).

Definition step (c : Controller) (e : Event) : Controller :=
  match e with
  | Frame delta => useFrame delta c
  | MouseDown a => handleShoot a c
  end.

Definition run (events : list Event) : Controller :=
  fold_left step events mount.

(** ** App.tsx *)

Definition handleGameFinish (score shotsFired shotsHit : nat)
  (missData : list ShotData) : SessionStats :=
  mkStats score shotsFired shotsHit
          (if (0 <? shotsFired)%nat
           then (of_nat shotsHit / of_nat shotsFired) * lit 100
           else lit 0)
          missData (scenario props) (sensitivity props).

(** The timer's last tick:
    [onFinish(scoreRef.current, shotsFiredRef.current, scoreRef.current, shotDataRef.current)]. *)
Definition finish (c : Controller) : SessionStats :=
  handleGameFinish (scoreRef c) (shotsFiredRef c) (scoreRef c) (shotDataRef c).

(** ** ResultsScreen.tsx: the [analysis] memo *)

Record Analysis : Type := mkAnalysis {
  left : nat;
  right : nat;
  top : nat;
  bottom : nat;
  overshoots : nat;
  undershoots : nat;
  recommendation : string
}.

(** The line feed written [\n] in the source. *)
Definition LF : string := String (Ascii.ascii_of_nat 10) EmptyString.

Definition msg_perfect : string :=
  "Perfect run! Your sensitivity is well-tuned.".

Definition msg_balanced : string :=
  "Your aim is balanced. Continue training to build consistency.".

Definition msg_overshoot : string :=
  "You consistently OVERSHOOT moving targets. " ++ LF
  ++ "Try LOWERING your sensitivity or DPI slightly.".

Definition msg_undershoot : string :=
  "You consistently UNDERSHOOT moving targets. " ++ LF
  ++ "Try INCREASING your sensitivity or DPI slightly.".

Definition msg_left : string :=
  "You consistently miss to the LEFT. Check your initial crosshair placement or grip stability.".

Definition msg_right : string :=
  "You consistently miss to the RIGHT. You might be pulling your mouse too fast.".

Definition msg_vertical : string :=
  "Significant vertical drift detected. Check your posture and mousepad friction.".

Definition msg_scatter : string :=
  "Wide horizontal scatter detected. Your sensitivity might be too high for precise micro-adjustments.".

(** [v || 0] for an optional number ([NaN || 0], which is 0, is outside
    the model). *)
Definition orZero (v : option num) : num :=
  match v with
  | Some x => x
  | None => lit 0
  end.

(** [v! > 0] and [v! < 0]: a comparison with [undefined] is false. *)
Definition positive (v : option num) : bool :=
  match v with
  | Some x => x >? lit 0
  | None => false
  end.

Definition negative (v : option num) : bool :=
  match v with
  | Some x => x <? lit 0
  | None => false
  end.

Definition defined (A : Type) (v : option A) : bool :=
  match v with
  | Some _ => true
  | None => false
  end.

Definition is_overshoot (m : ShotData) : bool :=
  (positive (targetVelocityX m) && positive (relativeX m))
  || (negative (targetVelocityX m) && negative (relativeX m)).

Definition is_undershoot (m : ShotData) : bool :=
  (positive (targetVelocityX m) && negative (relativeX m))
  || (negative (targetVelocityX m) && positive (relativeX m)).

(** [Math.abs(a - b)] on two lengths. *)
Definition abs_diff (a b : nat) : nat := Z.abs_nat (Z.of_nat a - Z.of_nat b).

Definition analysis (stats : SessionStats) : Analysis :=
  let misses := filter (fun s => negb (hit s)) (stats_missData stats) in
  let totalMisses := List.length misses in
  if (totalMisses =? 0)%nat then mkAnalysis 0 0 0 0 0 0 msg_perfect
  else
    let left := List.length (filter (fun m => orZero (relativeX m) <? lit 0) misses) in
    let right := List.length (filter (fun m => orZero (relativeX m) >? lit 0) misses) in
    let top := List.length (filter (fun m => orZero (relativeY m) >? lit 0) misses) in
    let bottom := List.length (filter (fun m => orZero (relativeY m) <? lit 0) misses) in
    let tracking := ScenarioType_eqb (stats_scenario stats) TRACKING in
    let trackingMisses := filter (fun m => defined (targetVelocityX m)) misses in
    let overshoots :=
      if tracking then List.length (filter is_overshoot trackingMisses) else 0%nat in
    let undershoots :=
      if tracking then List.length (filter is_undershoot trackingMisses) else 0%nat in
    let recommendation :=
      if tracking then
        if (of_nat overshoots >? of_nat undershoots * lit 1.5)
           && (3 <? overshoots)%nat
        then msg_overshoot
        else if (of_nat undershoots >? of_nat overshoots * lit 1.5)
                && (3 <? undershoots)%nat
        then msg_undershoot
        else msg_balanced
      else
        let horizontalBias := abs_diff left right in
        let verticalBias := abs_diff top bottom in
        if of_nat horizontalBias >? of_nat totalMisses * lit 0.5
        then (if (right <? left)%nat then msg_left else msg_right)
        else if of_nat verticalBias >? of_nat totalMisses * lit 0.5
        then msg_vertical
        else
          let avgSpread :=
            fold_left (fun acc m => acc + Math_abs (orZero (relativeX m)))
                      misses (lit 0)
            / of_nat totalMisses in
          if avgSpread >? lit 1.5 then msg_scatter else msg_balanced in
    mkAnalysis left right top bottom overshoots undershoots recommendation.

End Program.

Section Shell.

Context {num : Type} {N : JsNumber num}.
Local Open Scope js_scope.

(** ** Game3D.tsx: the countdown

    [timeLeft], and whether the interval set by the mount effect is still
    set. *)
Record Countdown : Type := mkCountdown {
  timeLeft : nat;
  timer : bool
}.

Definition countdown_start : Countdown := mkCountdown 30 true.

(** One firing of the interval, that is the updater given to
    [setTimeLeft]: the new countdown, and whether [onFinish] was called. *)
Definition interval (k : Countdown) : Countdown * bool :=
  if timer k then
    if (timeLeft k <=? 1)%nat
    then (mkCountdown 0 false, true)
    else (mkCountdown (timeLeft k - 1) (timer k), false)
  else (k, false).

(** A game from its mount on: the controller, the countdown and the
    stats handed to [onFinish].  [onFinish] makes the shell leave the
    PLAYING state, in which alone the game is rendered: the game is
    unmounted, its listener and its interval are removed, and no event
    reaches it any more. *)
Record Game : Type := mkGame {
  controller : @Controller num;
  countdown : Countdown;
  finished : list (@SessionStats num)
}.

Inductive GameEvent : Type :=
| Input (e : @Event num)
| Second.

Definition game_start (rt : @Runtime num) (props : @Game3DProps num) : Game :=
  mkGame (mount rt props) countdown_start [].

Definition game_step (rt : @Runtime num) (props : @Game3DProps num)
  (g : Game) (e : GameEvent) : Game :=
  match finished g with
  | _ :: _ => g
  | [] =>
      match e with
      | Input e =>
          mkGame (step rt props (controller g) e) (countdown g) (finished g)
      | Second =>
          let (k, calls_onFinish) := interval (countdown g) in
          mkGame (controller g) k
                 (if calls_onFinish
                  then finished g ++ [finish props (controller g)]
                  else finished g)
      end
  end.

Definition game_run (rt : @Runtime num) (props : @Game3DProps num)
  (events : list GameEvent) : Game :=
  fold_left (game_step rt props) events (game_start rt props).

(** ** App.tsx: the application shell *)

Inductive GameState : Type := MENU | PLAYING | RESULTS.

Record App : Type := mkApp {
  gameState : GameState;
  app_scenario : ScenarioType;
  app_sensitivity : num;
  lastStats : option (@SessionStats num)
}.

Definition App_start : App := mkApp MENU GRIDSHOT (lit 1.0) None.

Definition handleStartGame (type : ScenarioType) (a : App) : App :=
  mkApp PLAYING type (app_sensitivity a) (lastStats a).

(** [handleGameFinish] as a whole: the stats built by [handleGameFinish]
    above from the shell's scenario and sensitivity become [lastStats]. *)
Definition App_handleGameFinish (score shotsFired shotsHit : nat)
  (missData : list ShotData) (a : App) : App :=
  mkApp RESULTS (app_scenario a) (app_sensitivity a)
        (Some (handleGameFinish (mkProps (app_scenario a) (app_sensitivity a))
                                score shotsFired shotsHit missData)).

Definition setSensitivity (v : num) (a : App) : App :=
  mkApp (gameState a) (app_scenario a) v (lastStats a).

Definition onRestart (a : App) : App :=
  mkApp PLAYING (app_scenario a) (app_sensitivity a) (lastStats a).

Definition onMenu (a : App) : App :=
  mkApp MENU (app_scenario a) (app_sensitivity a) (lastStats a).

(** What the user and the game can do to the shell.  The menu, the game
    and the results screen are rendered one at a time, by [gameState], so
    that each handler can only be reached in its own state. *)
Inductive AppEvent : Type :=
| ClickScenario (type : ScenarioType)
| MoveSlider (v : num)
| GameOver (score shotsFired shotsHit : nat) (missData : list (@ShotData num))
| ClickPlayAgain
| ClickMainMenu.

Definition app_step (a : App) (e : AppEvent) : App :=
  match gameState a, e with
  | MENU, ClickScenario type => handleStartGame type a
  | MENU, MoveSlider v => setSensitivity v a
  | PLAYING, GameOver score shotsFired shotsHit missData =>
      App_handleGameFinish score shotsFired shotsHit missData a
  | RESULTS, ClickPlayAgain => onRestart a
  | RESULTS, ClickMainMenu => onMenu a
  | _, _ => a
  end.

Definition app_run (events : list AppEvent) : App :=
  fold_left app_step events App_start.

(** ** ResultsScreen.tsx: the scatter data and the "Misses" tile *)




End Shell.

(** ** Notions used in the statements *)

(** The last element of a list, if any. *)
Definition last_opt (A : Type) (l : list A) : option A :=
  match rev l with
  | x :: _ => Some x
  | [] => None
  end.

(** The [Date.now()] values of the mouse clicks of a session, in order. *)
Definition fire_times (num : Type) (events : list (@Event num)) : list num :=
  flat_map (fun e => match e with
                     | MouseDown a => [now a]
                     | Frame _ => []
                     end) events.

(** A target that does not move. *)
Definition at_rest {num : Type} {N : JsNumber num} (t : @TargetEntity num) : Prop :=
  velocity t = vec3 (lit 0) (lit 0) (lit 0).

(** Translation of a scene by [v]: of a target, and of the camera with
    its ray. *)
Definition translate_target (num : Type) {N : JsNumber num} (v : Vec3)
  (t : TargetEntity) : TargetEntity :=
  mkTarget (id t) (v_add (position t) v) (active t) (velocity t) (radius t).

Definition translate_aim (num : Type) {N : JsNumber num} (v : Vec3)
  (a : Aim) : Aim :=
  mkAim (v_add (camera_position a) v) (camera_worldDirection a)
        (camera_right a) (camera_up a)
        (mkRay (v_add (origin (raycaster_ray a)) v) (direction (raycaster_ray a)))
        (now a).

Definition translate_scan (num : Type) {N : JsNumber num} (v : Vec3)
  (s : Scan) : Scan :=
  mkScan (hitFound s) (hitTargetId s)
         (option_map (translate_target v) (closestTarget s))
         (minAngularDist s).

(** A translation by [v] is exact for a target when it changes neither
    of the two differences of coordinates that [handleShoot] computes for
    it: target minus camera, and closest point of the line of sight minus
    target.  Exact arithmetic makes every translation exact; in doubles
    the sums and differences round, and a translation may or may not
    be. *)
Definition translation_exact (num : Type) {N : JsNumber num} (v : Vec3)
  (a : Aim) (t : TargetEntity) : Prop :=
  let toTarget := v_sub (position t) (camera_position a) in
  let along :=
    v_multiplyScalar (camera_worldDirection a)
                     (v_dot toTarget (camera_worldDirection a)) in
  v_sub (v_add (position t) v) (v_add (camera_position a) v) = toTarget
  /\ v_sub (v_add (v_add (camera_position a) v) along) (v_add (position t) v)
     = v_sub (v_add (camera_position a) along) (position t).

(** Overshoot and undershoot in the words of the specification, for a
    miss record: the target's horizontal velocity is defined and the sign
    of the horizontal offset is that of the velocity, or the opposite one. *)
Definition sign_matches (m : @ShotData R) : bool :=
  match targetVelocityX m, relativeX m with
  | Some velocity_x, Some relative_x =>
      (Rltb 0 velocity_x && Rltb 0 relative_x)
      || (Rltb velocity_x 0 && Rltb relative_x 0)
  | _, _ => false
  end.

Definition sign_opposes (m : @ShotData R) : bool :=
  match targetVelocityX m, relativeX m with
  | Some velocity_x, Some relative_x =>
      (Rltb 0 velocity_x && Rltb relative_x 0)
      || (Rltb velocity_x 0 && Rltb 0 relative_x)
  | _, _ => false
  end.

(** *** Concrete scenes, over the real numbers *)

Open Scope R_scope.
Open Scope string_scope.

(** A runtime whose [Math.random] returns 0.5 at every call; the only
    number it ever renders in base 36 is 0.5, which reads "0.i". *)
Definition repeating_runtime : @Runtime R :=
  mkRuntime (fun _ => 0.5%R) (fun _ => "0.i"%string).

(** The camera at the origin looking down the negative Z axis, the ray
    along the view direction. *)
Definition aim_ahead : @Aim R :=
  mkAim (vec3 0 0 0) (vec3 0 0 (-1)) (vec3 1 0 0) (vec3 0 1 0)
        (mkRay (vec3 0 0 0) (vec3 0 0 (-1))) 1000%R.

(** The camera turned round, looking down the positive Z axis. *)
Definition aim_back : @Aim R :=
  mkAim (vec3 0 0 0) (vec3 0 0 1) (vec3 (-1) 0 0) (vec3 0 1 0)
        (mkRay (vec3 0 0 0) (vec3 0 0 1)) 1000%R.

(** Two targets in line with the view direction, one behind the other. *)
Definition target_near : @TargetEntity R :=
  mkTarget "near" (vec3 0 0 (-10)) true (vec3 0 0 0) 0.5%R.

Definition target_far : @TargetEntity R :=
  mkTarget "far" (vec3 0 0 (-12)) true (vec3 0 0 0) 0.5%R.

(** A target three units to the right of the line of sight. *)
Definition target_aside : @TargetEntity R :=
  mkTarget "aside" (vec3 3 0 (-4)) true (vec3 0 0 0) 0.5%R.

(** The moving target of the specification's bounce example. *)
Definition target_at_edge : @TargetEntity R :=
  mkTarget "edge" (vec3 7.9 1.5 (-10)) true (vec3 3 0 0) 0.5%R.

(** A miss to the right of a target that moves to the right. *)
Definition miss_ahead (time : R) : @ShotData R :=
  mkShot time false None (Some 0.7%R) (Some 0.1%R) (Some 0.8%R) (Some 3%R).

(** A tracking session of five shots, all of them such misses. *)
Definition five_misses_ahead : @SessionStats R :=
  mkStats 0 5 0 0
          [miss_ahead 1; miss_ahead 2; miss_ahead 3; miss_ahead 4; miss_ahead 5]
          TRACKING 1.

(** A session of one shot, a hit. *)
Definition only_hits : @SessionStats R :=
  mkStats 1 1 1 100 [mkShot 1000 true (Some "near") None None None None]
          GRIDSHOT 1.

Close Scope string_scope.
Close Scope R_scope.

(** *** The same scenes in double precision *)

Definition double_vec (x y z : Q) : @Vec3 PrimFloat.float :=
  vec3 (float_lit x) (float_lit y) (float_lit z).

(** The camera of [aim_ahead], with a ray along [ray_direction]. *)
Definition double_aim (ray_direction : @Vec3 PrimFloat.float)
  : @Aim PrimFloat.float :=
  mkAim (double_vec 0 0 0) (double_vec 0 0 (-1)) (double_vec 1 0 0)
        (double_vec 0 1 0) (mkRay (double_vec 0 0 0) ray_direction)
        (float_lit 1000).

Definition double_target (name : string) (x y z velocity_x : Q)
  : @TargetEntity PrimFloat.float :=
  mkTarget name (double_vec x y z) true (double_vec velocity_x 0 0)
           (float_lit 0.5).

Definition double_runtime : @Runtime PrimFloat.float :=
  mkRuntime (fun _ => float_lit 0.5) (fun _ => "0.i"%string).

(** A displacement of 10^18 along the X axis. *)
Definition double_far_away : @Vec3 PrimFloat.float :=
  double_vec 1000000000000000000 0 0.

(** A displacement of 0.2 along the X axis, and a target whose rim
    touches the line of sight of [double_aim]: its centre is 0.5 off the
    line and its radius is 0.5. *)
Definition double_step_aside : @Vec3 PrimFloat.float := double_vec 0.2 0 0.

Definition double_rim_target : @TargetEntity PrimFloat.float :=
  double_target "rim" 0.5 0 (-10) 0.

Definition double_miss (time relative_x velocity_x : Q) : @ShotData PrimFloat.float :=
  mkShot (float_lit time) false None (Some (float_lit relative_x))
         (Some (float_lit 0.1)) (Some (float_lit 0.8))
         (Some (float_lit velocity_x)).

(** *** Notions for the further properties *)

(** The two shapes of a record of the log: a hit names a target and has
    no offsets; a miss names no target and has all four offsets or none. *)
Definition hit_shape {num : Type} (r : @ShotData num) : Prop :=
  hit r = true
  /\ (exists i : string, targetId r = Some i)
  /\ relativeX r = None /\ relativeY r = None
  /\ distanceFromCenter r = None /\ targetVelocityX r = None.

Definition miss_shape {num : Type} (r : @ShotData num) : Prop :=
  hit r = false
  /\ targetId r = None
  /\ ((exists x y d v : num,
          relativeX r = Some x /\ relativeY r = Some y
          /\ distanceFromCenter r = Some d /\ targetVelocityX r = Some v)
      \/ (relativeX r = None /\ relativeY r = None
          /\ distanceFromCenter r = None /\ targetVelocityX r = None)).

(** The number of targets spawned by the mount effect. *)
Definition initial_pool (sc : ScenarioType) : nat :=
  match sc with
  | GRIDSHOT => 3
  | TRACKING | FLICKING => 1
  end.

(** The calls of [Math.random] made by the mount effect and by one
    respawn. *)
Definition draws_at_mount (sc : ScenarioType) : nat :=
  match sc with
  | GRIDSHOT => 12
  | TRACKING => 3
  | FLICKING => 4
  end.

Definition draws_per_respawn (sc : ScenarioType) : nat :=
  match sc with
  | TRACKING => 6
  | GRIDSHOT | FLICKING => 4
  end.

(** The seconds among the events of a mounted game, and the input events
    that come before the n-th second. *)
Definition seconds {num : Type} (events : list (@GameEvent num)) : nat :=
  List.length (filter (fun e => match e with
                                | Second => true
                                | Input _ => false
                                end) events).

Fixpoint inputs_before {num : Type} (n : nat) (events : list (@GameEvent num))
  : list (@Event num) :=
  match events with
  | [] => []
  | Input e :: events' => e :: inputs_before n events'
  | Second :: events' =>
      match n with
      | O | S O => []
      | S n' => inputs_before n' events'
      end
  end.

(** *** Notions over the real numbers *)

(** [Math.random] returns numbers from 0 up to, not including, 1. *)
Definition unit_interval (rt : @Runtime R) : Prop :=
  forall n : nat, (0 <= random_value rt n < 1)%R.

(** What every target of a session looks like: within the walls, in the
    band of heights and depths the spawn draws from, at rest or moving
    along the X axis at a speed from 2 to 4.  The far end of the depths
    and the top speed are included: the spawn stays short of them in
    exact arithmetic, and can land on them once its products round. *)
Definition in_arena (sc : ScenarioType) (t : @TargetEntity R) : Prop :=
  (-8 <= vec_x (position t) <= 8)%R
  /\ (1 <= vec_y (position t) < 4)%R
  /\ (-13 <= vec_z (position t) <= -8)%R
  /\ radius t = (if ScenarioType_eqb sc FLICKING then 0.3 else 0.5)%R
  /\ active t = true
  /\ vec_y (velocity t) = 0%R /\ vec_z (velocity t) = 0%R
  /\ (if ScenarioType_eqb sc TRACKING
      then (2 <= Rabs (vec_x (velocity t)) <= 4)%R
      else vec_x (velocity t) = 0%R).

(** Frames of at most two seconds. *)
Definition short_frames (events : list (@Event R)) : Prop :=
  Forall (fun e => match e with
                   | Frame delta => (0 <= delta <= 2)%R
                   | MouseDown _ => True
                   end) events.

(** The camera turned to look the opposite way, where it stands. *)
Definition reverse_aim (a : @Aim R) : @Aim R :=
  mkAim (camera_position a)
        (vec3 (- vec_x (camera_worldDirection a))%R
              (- vec_y (camera_worldDirection a))%R
              (- vec_z (camera_worldDirection a))%R)
        (camera_right a) (camera_up a) (raycaster_ray a) (now a).

(** The distance from the centre of a target to the line of sight, as
    the hit test of [handleShoot] computes it. *)
Definition distToCenter (a : @Aim R) (target : @TargetEntity R) : R :=
  v_distanceTo
    (v_add (camera_position a)
           (v_multiplyScalar (camera_worldDirection a)
              (v_dot (v_sub (position target) (camera_position a))
                     (camera_worldDirection a))))
    (position target).

(** A camera as three.js hands it over: the view direction is a unit
    vector and the ray starts at the camera and runs along it. *)
Definition standard_camera (a : @Aim R) : Prop :=
  v_dot (camera_worldDirection a) (camera_worldDirection a) = 1%R
  /\ raycaster_ray a = mkRay (camera_position a) (camera_worldDirection a).

(** A miss record without offsets. *)
Definition offsetless {num : Type} (r : @ShotData num) : Prop :=
  relativeX r = None /\ relativeY r = None /\ targetVelocityX r = None.

(** *** Further concrete inputs, over the real numbers *)

(** A miss at the offset (x, y) from a target at rest. *)
Definition miss_at (time x y : R) : @ShotData R :=
  mkShot time false None (Some x) (Some y) (Some 1%R) (Some 0%R).

(** The gridshot session of ten misses, eight of them to the left. *)
Definition ten_misses_left : @SessionStats R :=
  mkStats 0 10 0 0%R
          [miss_at 1 (-0.6) 0; miss_at 2 (-0.6) 0; miss_at 3 (-0.6) 0;
           miss_at 4 (-0.6) 0; miss_at 5 0.4 0; miss_at 6 (-0.6) 0;
           miss_at 7 (-0.6) 0; miss_at 8 0.4 0; miss_at 9 (-0.6) 0;
           miss_at 10 (-0.6) 0]%R
          GRIDSHOT 1%R.

(** Stats with one miss that has no offsets. *)
Definition one_blind_miss : @SessionStats R :=
  mkStats 0 1 0 0%R [mkShot 1000%R false None None None None None]
          FLICKING 1%R.

(** The props of a gridshot and of a tracking game. *)
Definition gridshot_game : @Game3DProps R := mkProps GRIDSHOT 1%R.

Definition tracking_game : @Game3DProps R := mkProps TRACKING 1%R.

(** Two aligned targets in a gridshot game. *)
Definition two_in_line : @Controller R :=
  mkController [target_near; target_far] 0 0 [] 0.

(** A tracking session: a frame, a click, a frame. *)
Definition short_session : list (@Event R) :=
  [Frame 1%R; MouseDown aim_ahead; Frame 0.5%R].

(** A game of a click, thirty seconds and another click. *)
Definition full_game : list (@GameEvent R) :=
  Input (MouseDown aim_ahead) :: repeat Second 30
  ++ [Input (MouseDown aim_ahead)].

(** Choosing the tracking scenario and playing a game to its end. *)
Definition one_round : list (@AppEvent R) :=
  [ClickScenario TRACKING; GameOver 3 4 3 []].

(** The log seen in a mirror: every horizontal offset changes sign. *)
Definition mirror_shot (r : @ShotData R) : @ShotData R :=
  mkShot (timestamp r) (hit r) (targetId r) (option_map Ropp (relativeX r))
         (relativeY r) (distanceFromCenter r) (targetVelocityX r).

Definition mirror_stats (stats : @SessionStats R) : @SessionStats R :=
  mkStats (stats_score stats) (stats_shotsFired stats) (stats_shotsHit stats)
          (stats_accuracy stats) (map mirror_shot (stats_missData stats))
          (stats_scenario stats) (stats_sensitivity stats).

(** ** Properties that hold for every carrier of numbers *)

Unset Implicit Arguments.

Section Control.

Context {num : Type} {N : JsNumber num}.
Variable rt : @Runtime num.

Lemma last_opt_snoc (A : Type) (l : list A) (x : A) :
  last_opt (l ++ [x]) = Some x.
Proof. unfold last_opt. rewrite rev_app_distr. reflexivity. Qed.

Lemma scan_snoc (a : Aim) (ts : list TargetEntity) (t : TargetEntity) :
  scan a (ts ++ [t]) = scan_step a (scan a ts) t.
Proof. unfold scan. rewrite fold_left_app. reflexivity. Qed.

Lemma scan_step_hitFound (a : Aim) (s : Scan) (t : TargetEntity) :
  hitFound (scan_step a s t) = hitTest a t || hitFound s.
Proof.
  unfold scan_step.
  destruct (hitTest a t); cbn [minAngularDist hitFound];
    destruct (minAngularDist s) as [m|]; try reflexivity;
    destruct (lt (angleOf a t) m); reflexivity.
Qed.

Lemma scan_step_hitTargetId (a : Aim) (s : Scan) (t : TargetEntity) :
  hitTargetId (scan_step a s t) = if hitTest a t then id t else hitTargetId s.
Proof.
  unfold scan_step.
  destruct (hitTest a t); cbn [minAngularDist hitTargetId];
    destruct (minAngularDist s) as [m|]; try reflexivity;
    destruct (lt (angleOf a t) m); reflexivity.
Qed.

(** The loop leaves in [hitFound] and [hitTargetId] the last target of the
    list that passes the hit test. *)
Lemma scan_last_hit (a : Aim) (ts : list TargetEntity) :
  match last_opt (filter (hitTest a) ts) with
  | Some t => hitFound (scan a ts) = true /\ hitTargetId (scan a ts) = id t
  | None => hitFound (scan a ts) = false /\ hitTargetId (scan a ts) = EmptyString
  end.
Proof.
  induction ts as [|t ts IH] using rev_ind.
  - cbn. split; reflexivity.
  - rewrite filter_app, scan_snoc, scan_step_hitFound, scan_step_hitTargetId.
    cbn [filter]. destruct (hitTest a t) eqn:Ht.
    + rewrite last_opt_snoc. split; reflexivity.
    + rewrite app_nil_r. cbn [orb]. exact IH.
Qed.

Variable props : @Game3DProps num.

(** C1, as the code has it: among the live targets that pass the hit test
    the last one in iteration order is the one reported, both in the
    loop's [hitTargetId] and in the record that [handleShoot] appends; when
    none passes, no hit is found. *)
Theorem handleShoot_reports_last_hit (a : Aim) (c : Controller) :
  match last_opt (filter (hitTest a) (targets c)) with
  | Some t =>
      hitFound (scan a (targets c)) = true
      /\ hitTargetId (scan a (targets c)) = id t
      /\ shotDataRef (handleShoot rt props a c)
         = shotDataRef c ++ [mkShot (now a) true (Some (id t)) None None None None]
  | None => hitFound (scan a (targets c)) = false
  end.
Proof.
  pose proof (scan_last_hit a (targets c)) as H.
  destruct (last_opt (filter (hitTest a) (targets c))) as [t|].
  - destruct H as [Hf Hid]. repeat split; trivial.
    unfold handleShoot. rewrite Hf, Hid.
    destruct (spawnTarget _ _ _ _ _) as [spawned n]. reflexivity.
  - apply H.
Qed.

(** Every call of [handleShoot] appends one record, stamped with the time
    of the click, and counts one shot. *)
Lemma handleShoot_appends (a : Aim) (c : Controller) :
  exists r : ShotData,
    shotDataRef (handleShoot rt props a c) = shotDataRef c ++ [r]
    /\ timestamp r = now a
    /\ shotsFiredRef (handleShoot rt props a c) = S (shotsFiredRef c).
Proof.
  unfold handleShoot. destruct (hitFound (scan a (targets c))).
  - destruct (spawnTarget _ _ _ _ _) as [spawned n].
    eexists. repeat split.
  - destruct (closestTarget (scan a (targets c))) as [ct|].
    + unfold missRecord, truthy_object. eexists. repeat split.
    + eexists. repeat split.
Qed.

Lemma useFrame_keeps_log (delta : num) (c : Controller) :
  shotDataRef (useFrame props delta c) = shotDataRef c
  /\ shotsFiredRef (useFrame props delta c) = shotsFiredRef c.
Proof.
  unfold useFrame. destruct (ScenarioType_eqb _ _); split; reflexivity.
Qed.

(** The log and the shot counter after more events, from any state. *)
Lemma steps_log (events : list Event) (c : Controller) :
  exists suffix : list ShotData,
    shotDataRef (fold_left (step rt props) events c) = shotDataRef c ++ suffix
    /\ map (@timestamp num) suffix = fire_times events
    /\ shotsFiredRef (fold_left (step rt props) events c)
       = (shotsFiredRef c + List.length suffix)%nat.
Proof.
  revert c. induction events as [|e events IH]; intros c.
  - exists []. cbn. rewrite app_nil_r. auto.
  - cbn [fold_left]. destruct (IH (step rt props c e)) as (suffix & Hl & Ht & Hn).
    destruct e as [delta|a]; cbn [step] in *.
    + destruct (useFrame_keeps_log delta c) as [Hl0 Hn0].
      exists suffix. rewrite Hl, Hn, Hl0, Hn0. auto.
    + destruct (handleShoot_appends a c) as (r & Hl0 & Ht0 & Hn0).
      exists (r :: suffix). rewrite Hl, Hn, Hl0, Hn0, <- app_assoc.
      cbn. rewrite Ht0, Ht. repeat split. lia.
Qed.

Lemma mount_log : shotDataRef (mount rt props) = [] /\ shotsFiredRef (mount rt props) = 0%nat.
Proof.
  unfold mount.
  destruct (scenario props);
    match goal with |- context [let (_, _) := ?m in _] => destruct m end;
    split; reflexivity.
Qed.

(** C5: in every session the log has one record per shot fired, in the
    order of the shots (the n-th record carries the time of the n-th
    click), and what has been appended stays: the log at any earlier
    moment of the session is a prefix of the log at any later one. *)
Theorem shot_log_append_only (events later : list Event) :
  List.length (shotDataRef (run rt props events)) = shotsFiredRef (run rt props events)
  /\ List.length (shotDataRef (run rt props events)) = List.length (fire_times events)
  /\ map (@timestamp num) (shotDataRef (run rt props events)) = fire_times events
  /\ exists suffix : list ShotData,
       shotDataRef (run rt props (events ++ later))
       = shotDataRef (run rt props events) ++ suffix
       /\ List.length suffix = List.length (fire_times later).
Proof.
  unfold run. destruct mount_log as [Hl0 Hn0].
  destruct (steps_log events (mount rt props)) as (suffix & Hl & Ht & Hn).
  rewrite Hl0 in Hl. rewrite Hn0 in Hn. cbn in Hl, Hn.
  rewrite Hl, Hn, Ht, <- Ht, length_map. repeat split.
  rewrite fold_left_app.
  destruct (steps_log later (fold_left (step rt props) events (mount rt props)))
    as (suffix' & Hl' & Ht' & _).
  exists suffix'. rewrite Hl', Hl, <- Ht', length_map. auto.
Qed.

(** The new target's id is read off one value of [Math.random]; the
    list passed in is only extended. *)
Lemma spawnTarget_result (currentList : list TargetEntity)
  (fixedPos : option Vec3) (n : nat) :
  id (fst (fst (spawnTarget rt props currentList fixedPos n)))
  = substring 2 9 (toString36 rt (random_value rt n))
  /\ snd (fst (spawnTarget rt props currentList fixedPos n))
     = currentList ++ [fst (fst (spawnTarget rt props currentList fixedPos n))].
Proof.
  unfold spawnTarget, bind, Math_random, ret.
  destruct fixedPos; destruct (ScenarioType_eqb (scenario props) TRACKING);
    cbn; split; reflexivity.
Qed.

(** C4, as the code has it: the id given to a spawned target is the
    characters 2 to 10 of the base-36 rendering of the next value of
    [Math.random], whatever the live targets are; it is new among them
    exactly when that string is not one of their ids. *)
Theorem spawnTarget_id_from_random (currentList : list TargetEntity)
  (fixedPos : option Vec3) (n : nat) :
  let newTarget := fst (fst (spawnTarget rt props currentList fixedPos n)) in
  id newTarget = substring 2 9 (toString36 rt (random_value rt n))
  /\ (In (id newTarget) (map (@id num) currentList)
      <-> In (substring 2 9 (toString36 rt (random_value rt n)))
             (map (@id num) currentList)).
Proof.
  cbv zeta. destruct (spawnTarget_result currentList fixedPos n) as [H _].
  rewrite H. split; [reflexivity | tauto].
Qed.

(** C10: the stats built at the end of a session report the score as the
    number of shots hit, and the accuracy is score / shots fired * 100 when
    a shot was fired. *)
Theorem finish_shotsHit_is_score (c : Controller) :
  stats_shotsHit (finish props c) = stats_score (finish props c)
  /\ stats_score (finish props c) = scoreRef c
  /\ stats_shotsFired (finish props c) = shotsFiredRef c
  /\ ((0 < stats_shotsFired (finish props c))%nat ->
      stats_accuracy (finish props c)
      = ((of_nat (stats_score (finish props c))
          / of_nat (stats_shotsFired (finish props c))) * lit 100)%js).
Proof.
  unfold finish, handleGameFinish.
  cbn [stats_shotsHit stats_score stats_shotsFired stats_accuracy].
  repeat split.
  intros H. apply Nat.ltb_lt in H. rewrite H. reflexivity.
Qed.

(** C7: a log without a miss gets zero counts and the "Perfect run"
    message, in every scenario. *)
Theorem analysis_no_miss (stats : SessionStats) :
  filter (fun s => negb (hit s)) (stats_missData stats) = [] ->
  analysis stats
  = mkAnalysis 0 0 0 0 0 0 "Perfect run! Your sensitivity is well-tuned.".
Proof.
  intros H. unfold analysis. rewrite H. reflexivity.
Qed.

(** A miss next to an intended target always yields a record, and the
    record has the four offset fields: the test on [intersection] cannot
    fail. *)
Lemma missRecord_defined (a : Aim) (ct : TargetEntity) :
  exists x y d : num,
    missRecord a ct
    = Some (mkShot (now a) false None (Some x) (Some y) (Some d)
                   (Some (vec_x (velocity ct)))).
Proof. unfold missRecord, truthy_object. do 3 eexists. reflexivity. Qed.

(** *** Outside the tracking scenario no target moves *)

Lemma spawnTarget_at_rest (currentList : list TargetEntity)
  (fixedPos : option Vec3) (n : nat) :
  scenario props <> TRACKING ->
  Forall at_rest currentList ->
  Forall at_rest (snd (fst (spawnTarget rt props currentList fixedPos n))).
Proof.
  intros Hsc Hall.
  destruct (spawnTarget_result currentList fixedPos n) as [_ E]. rewrite E.
  apply Forall_app. split; [exact Hall|]. constructor; [|constructor].
  unfold spawnTarget, bind, Math_random, ret, at_rest.
  destruct (scenario props); try contradiction; destruct fixedPos; reflexivity.
Qed.

Lemma spawnTargets_at_rest (k : nat) (currentList : list TargetEntity) (n : nat) :
  scenario props <> TRACKING ->
  Forall at_rest currentList ->
  Forall at_rest (fst (spawnTargets rt props k currentList n)).
Proof.
  intros Hsc. revert currentList n.
  induction k as [|k IH]; intros currentList n Hall; cbn [spawnTargets].
  - exact Hall.
  - unfold bind.
    pose proof (spawnTarget_at_rest currentList None n Hsc Hall) as H.
    destruct (spawnTarget rt props currentList None n) as [p n'].
    apply IH. exact H.
Qed.

Lemma mount_at_rest :
  scenario props <> TRACKING -> Forall at_rest (targets (mount rt props)).
Proof.
  intros Hsc. unfold mount.
  pose proof (spawnTargets_at_rest 3 [] 0 Hsc (Forall_nil _)) as H3.
  pose proof (spawnTarget_at_rest [] None 0 Hsc (Forall_nil _)) as H1.
  destruct (scenario props); try contradiction.
  - destruct (spawnTargets rt props 3 [] 0%nat) as [l n]. exact H3.
  - unfold bind, ret.
    destruct (spawnTarget rt props [] None 0%nat) as [p n]. exact H1.
Qed.

Lemma step_at_rest (c : Controller) (e : Event) :
  scenario props <> TRACKING ->
  Forall at_rest (targets c) -> Forall at_rest (targets (step rt props c e)).
Proof.
  intros Hsc Hall. destruct e as [delta|a]; cbn [step].
  - unfold useFrame. destruct (scenario props); try contradiction; exact Hall.
  - unfold handleShoot. destruct (hitFound (scan a (targets c))).
    + pose proof (spawnTarget_at_rest
                    (filter (fun t => negb (String.eqb (id t)
                               (hitTargetId (scan a (targets c))))) (targets c))
                    None (randomCalls c) Hsc) as H.
      destruct (spawnTarget rt props _ None (randomCalls c)) as [p n].
      apply H. apply Forall_forall. intros t Ht.
      apply filter_In in Ht. destruct Ht as [Ht _].
      revert t Ht. apply Forall_forall. exact Hall.
    + exact Hall.
Qed.

(** Only a tracking session has targets with a velocity. *)
Lemma velocity_only_in_tracking (events : list Event) :
  scenario props <> TRACKING ->
  Forall at_rest (targets (run rt props events)).
Proof.
  intros Hsc. unfold run. pose proof (mount_at_rest Hsc) as H.
  revert H. generalize (mount rt props).
  induction events as [|e events IH]; intros c Hc; cbn [fold_left].
  - exact Hc.
  - apply IH. apply step_at_rest; assumption.
Qed.

End Control.

Section Sensitivity.

Context {num : Type} {N : JsNumber num}.
Variable rt : @Runtime num.

Lemma step_reads_scenario_only (p q : Game3DProps) (c : Controller) (e : Event) :
  scenario p = scenario q -> step rt p c e = step rt q c e.
Proof.
  intros H. destruct e as [delta|a]; cbn [step].
  - unfold useFrame. rewrite H. reflexivity.
  - unfold handleShoot, spawnTarget. rewrite H. reflexivity.
Qed.

Lemma run_reads_scenario_only (p q : Game3DProps) (events : list Event) :
  scenario p = scenario q -> run rt p events = run rt q events.
Proof.
  intros H. unfold run.
  assert (Hm : mount rt p = mount rt q).
  { unfold mount, spawnTargets, spawnTarget. rewrite H. reflexivity. }
  rewrite Hm. generalize (mount rt q). 
  induction events as [|e events IH]; intros c; cbn [fold_left].
  - reflexivity.
  - rewrite (step_reads_scenario_only p q c e H). apply IH.
Qed.

(** C9: two sessions that differ only in the sensitivity go through the
    same targets, score, shot counter and log, and get the same analysis;
    of the stats built at the end only the [sensitivity] field, a copy of
    the setting, differs. *)
Theorem sensitivity_is_display_only (sc : ScenarioType) (s1 s2 : num)
  (events : list Event) :
  let c1 := run rt (mkProps sc s1) events in
  let c2 := run rt (mkProps sc s2) events in
  let st1 := finish (mkProps sc s1) c1 in
  let st2 := finish (mkProps sc s2) c2 in
  c1 = c2
  /\ analysis st1 = analysis st2
  /\ st1 = mkStats (stats_score st2) (stats_shotsFired st2) (stats_shotsHit st2)
                   (stats_accuracy st2) (stats_missData st2)
                   (stats_scenario st2) s1
  /\ stats_sensitivity st2 = s2.
Proof.
  cbv zeta.
  rewrite (run_reads_scenario_only (mkProps sc s1) (mkProps sc s2) events eq_refl).
  repeat split.
Qed.

End Sensitivity.

(** ** Translation of the scene *)

Section Translation.

Context {num : Type} {N : JsNumber num}.

Lemma hitTest_moved (v : Vec3) (a : Aim) (t : TargetEntity) :
  translation_exact v a t ->
  hitTest (translate_aim v a) (translate_target v t) = hitTest a t.
Proof.
  intros [H1 H2].
  unfold hitTest, translate_aim, translate_target, v_distanceTo.
  cbn [camera_position camera_worldDirection position radius].
  rewrite H1, H2. reflexivity.
Qed.

Lemma angleOf_moved (v : Vec3) (a : Aim) (t : TargetEntity) :
  translation_exact v a t ->
  angleOf (translate_aim v a) (translate_target v t) = angleOf a t.
Proof.
  intros [H1 _]. unfold angleOf, translate_aim, translate_target.
  cbn [camera_position camera_worldDirection position].
  rewrite H1. reflexivity.
Qed.

Lemma scan_step_moved (v : Vec3) (a : Aim) (s : Scan) (t : TargetEntity) :
  translation_exact v a t ->
  scan_step (translate_aim v a) (translate_scan v s) (translate_target v t)
  = translate_scan v (scan_step a s t).
Proof.
  intros H. unfold scan_step. rewrite (hitTest_moved v a t H), (angleOf_moved v a t H).
  destruct (hitTest a t);
    cbn [translate_scan minAngularDist hitFound hitTargetId closestTarget];
    destruct (minAngularDist s) as [m|]; try reflexivity;
    destruct (lt (angleOf a t) m); reflexivity.
Qed.

Lemma scan_moved (v : Vec3) (a : Aim) (ts : list TargetEntity) (s : Scan) :
  Forall (translation_exact v a) ts ->
  fold_left (scan_step (translate_aim v a)) (map (translate_target v) ts)
            (translate_scan v s)
  = translate_scan v (fold_left (scan_step a) ts s).
Proof.
  intros H. revert s. induction H as [|t ts Ht _ IH]; intros s; cbn [map fold_left].
  - reflexivity.
  - rewrite (scan_step_moved v a s t Ht). apply IH.
Qed.

(** C8: moving the camera and every target by the same vector changes
    neither whether the shot hits, nor the id reported as hit, nor the
    target chosen as the intended one (it is the same target, moved),
    provided the translation is exact for every target: it changes
    neither the difference target minus camera nor the difference closest
    point minus target.  This holds for every carrier of numbers, the
    doubles among them. *)
Theorem resolve_translation_when_exact (v : Vec3) (a : Aim)
  (ts : list TargetEntity) :
  Forall (translation_exact v a) ts ->
  let s := scan a ts in
  let s' := scan (translate_aim v a) (map (translate_target v) ts) in
  hitFound s' = hitFound s
  /\ hitTargetId s' = hitTargetId s
  /\ option_map (@id num) (closestTarget s') = option_map (@id num) (closestTarget s)
  /\ closestTarget s' = option_map (translate_target v) (closestTarget s).
Proof.
  intros H. cbv zeta. unfold scan.
  change scan_start with (translate_scan v scan_start) at 1 3 5 7.
  rewrite (scan_moved v a ts scan_start H).
  cbn [translate_scan hitFound hitTargetId closestTarget].
  repeat split.
  destruct (closestTarget (fold_left (scan_step a) ts scan_start)); reflexivity.
Qed.

End Translation.

(** ** Properties over the real numbers *)

Section Reals.

Local Open Scope R_scope.

Lemma Rltb_true (a b : R) : a < b -> Rltb a b = true.
Proof. intros H. unfold Rltb. destruct (Rlt_dec a b); [reflexivity | contradiction]. Qed.

Lemma Rltb_false (a b : R) : ~ a < b -> Rltb a b = false.
Proof. intros H. unfold Rltb. destruct (Rlt_dec a b); [contradiction | reflexivity]. Qed.

Lemma Rleb_false (a b : R) : ~ a <= b -> Rleb a b = false.
Proof. intros H. unfold Rleb. destruct (Rle_dec a b); [contradiction | reflexivity]. Qed.

Lemma Reqb_false (a b : R) : a <> b -> Reqb a b = false.
Proof. intros H. unfold Reqb. destruct (Req_dec_T a b); [contradiction | reflexivity]. Qed.

Lemma Reqb_true (a b : R) : a = b -> Reqb a b = true.
Proof. intros H. unfold Reqb. destruct (Req_dec_T a b); [reflexivity | contradiction]. Qed.

(** Unfolds the operations of [R_number] and the literals. *)
Ltac js_real :=
  cbn [lit of_nat add sub mul div neg lt le eq Math_sqrt Math_acos Math_abs Math_PI
       R_number] in *;
  unfold Q2R in *; cbn [Qnum Qden] in *.

(** The two branches of the loop body of the game loop. *)
Lemma bounce_inside (delta : R) (t : TargetEntity) :
  -8 <= vec_x (position t) + vec_x (velocity t) * delta <= 8 ->
  vec_x (position (bounce delta t)) = vec_x (position t) + vec_x (velocity t) * delta
  /\ vec_x (velocity (bounce delta t)) = vec_x (velocity t).
Proof.
  intros H. unfold bounce. js_real.
  rewrite 2!Rltb_false by lra.
  cbn. split; reflexivity.
Qed.

Lemma bounce_outside (delta : R) (t : TargetEntity) :
  vec_x (position t) + vec_x (velocity t) * delta > 8
  \/ vec_x (position t) + vec_x (velocity t) * delta < -8 ->
  vec_x (position (bounce delta t)) = vec_x (position t) + - vec_x (velocity t) * delta
  /\ vec_x (velocity (bounce delta t)) = - vec_x (velocity t).
Proof.
  intros H. unfold bounce. js_real.
  assert (Hb : Rltb (8 * / 1) (vec_x (position t) + vec_x (velocity t) * delta)
               || Rltb (vec_x (position t) + vec_x (velocity t) * delta) (-8 * / 1)
               = true).
  { apply orb_true_iff. destruct H; [left | right]; apply Rltb_true; lra. }
  rewrite Hb. cbn. split; lra.
Qed.

(** C3, as the code has it: in the tracking scenario a frame maps
    [bounce] over the targets; [bounce] moves a target by velocity_x * dt
    when that stays within [-8, 8], and otherwise negates velocity_x and
    moves the target from its old position with the negated velocity; from
    a position within [-8, 8] the result is within [-8, 8] as long as
    |velocity_x * dt| is at most 8.  In the other scenarios no target
    ever has a velocity. *)
Theorem tick_bounce (s delta : R) (c : Controller) (t : TargetEntity) :
  let x := vec_x (position t) in
  let v := vec_x (velocity t) in
  let t' := bounce delta t in
  targets (useFrame (mkProps TRACKING s) delta c) = map (bounce delta) (targets c)
  /\ (-8 <= x + v * delta <= 8 ->
      vec_x (position t') = x + v * delta /\ vec_x (velocity t') = v)
  /\ (x + v * delta > 8 \/ x + v * delta < -8 ->
      vec_x (velocity t') = - v /\ vec_x (position t') = x + (- v) * delta)
  /\ (-8 <= x <= 8 -> Rabs (v * delta) <= 8 -> -8 <= vec_x (position t') <= 8)
  /\ (forall (rt : @Runtime R) (props : @Game3DProps R) (events : list Event),
        scenario props <> TRACKING ->
        Forall at_rest (targets (run rt props events))).
Proof.
  cbv zeta. split; [reflexivity|]. split; [apply bounce_inside|].
  split; [|split; [|intros rt props events; apply velocity_only_in_tracking]].
  - intros H. destruct (bounce_outside delta t H). split; assumption.
  - intros Hx Hv.
    assert (Hv' : -8 <= vec_x (velocity t) * delta <= 8)
      by (unfold Rabs in Hv; destruct (Rcase_abs _) in Hv; lra).
    destruct (Rle_dec (vec_x (position t) + vec_x (velocity t) * delta) 8) as [Hhi|Hhi].
    + destruct (Rle_dec (-8) (vec_x (position t) + vec_x (velocity t) * delta)) as [Hlo|Hlo].
      * destruct (bounce_inside delta t (conj Hlo Hhi)) as [E _]. rewrite E. lra.
      * destruct (bounce_outside delta t) as [E _]; [right; lra|]. rewrite E. lra.
    + destruct (bounce_outside delta t) as [E _]; [left; lra|]. rewrite E. lra.
Qed.

(** The bounce example of the specification: from x = 7.9 with velocity
    +3, a frame of 0.1 s ends at x = 7.6 with velocity -3. *)
Lemma tick_bounce_example :
  vec_x (velocity (bounce 0.1 target_at_edge)) = -3
  /\ vec_x (position (bounce 0.1 target_at_edge)) = 7.6.
Proof.
  destruct (tick_bounce 0 0.1 (mkController [] 0%nat 0%nat [] 0%nat) target_at_edge)
    as (_ & _ & H & _).
  destruct H as [Hv Hx]; [left; cbn; lra|].
  split; [rewrite Hv | rewrite Hx]; cbn; lra.
Defined.

(** A frame of six seconds takes the same target from x = 7.9 to
    x = -10.1, outside the range. *)
Lemma tick_leaves_range :
  match targets (useFrame (mkProps TRACKING 1) 6
                          (mkController [target_at_edge] 0%nat 0%nat [] 1%nat)) with
  | [t'] => vec_x (position t') < -8
  | _ => False
  end.
Proof.
  cbn [useFrame scenario ScenarioType_eqb targets map].
  destruct (bounce_outside 6 target_at_edge) as [E _]; [left; cbn; lra|].
  rewrite E. cbn. lra.
Qed.

(** *** Translation of the scene, in exact arithmetic *)

Lemma v_sub_translate (v p o : Vec3) :
  v_sub (v_add p v) (v_add o v) = v_sub p o.
Proof. unfold v_sub, v_add. cbn. f_equal; ring. Qed.

Lemma v_sub_translate_along (v o w p : Vec3) :
  v_sub (v_add (v_add o v) w) (v_add p v) = v_sub (v_add o w) p.
Proof. unfold v_sub, v_add. cbn. f_equal; ring. Qed.

Lemma hitTest_translate (v : Vec3) (a : Aim) (t : TargetEntity) :
  hitTest (translate_aim v a) (translate_target v t) = hitTest a t.
Proof.
  unfold hitTest, translate_aim, translate_target, v_distanceTo.
  cbn [camera_position camera_worldDirection position radius].
  rewrite v_sub_translate, v_sub_translate_along. reflexivity.
Qed.

Lemma angleOf_translate (v : Vec3) (a : Aim) (t : TargetEntity) :
  angleOf (translate_aim v a) (translate_target v t) = angleOf a t.
Proof.
  unfold angleOf, translate_aim, translate_target.
  cbn [camera_position camera_worldDirection position].
  rewrite v_sub_translate. reflexivity.
Qed.

Lemma scan_step_translate (v : Vec3) (a : Aim) (s : Scan) (t : TargetEntity) :
  scan_step (translate_aim v a) (translate_scan v s) (translate_target v t)
  = translate_scan v (scan_step a s t).
Proof.
  unfold scan_step. rewrite hitTest_translate, angleOf_translate.
  destruct (hitTest a t); cbn [translate_scan minAngularDist hitFound hitTargetId closestTarget];
    destruct (minAngularDist s) as [m|]; try reflexivity;
    destruct (lt (angleOf a t) m); reflexivity.
Qed.

Lemma scan_translate (v : Vec3) (a : Aim) (ts : list TargetEntity) (s : Scan) :
  fold_left (scan_step (translate_aim v a)) (map (translate_target v) ts)
            (translate_scan v s)
  = translate_scan v (fold_left (scan_step a) ts s).
Proof.
  revert s. induction ts as [|t ts IH]; intros s; cbn [map fold_left].
  - reflexivity.
  - rewrite scan_step_translate. apply IH.
Qed.

(** Over the real numbers every translation is exact. *)
Lemma translation_exact_real (v : Vec3) (a : Aim) (t : TargetEntity) :
  translation_exact v a t.
Proof.
  unfold translation_exact. cbv zeta. split.
  - apply v_sub_translate.
  - apply v_sub_translate_along.
Qed.

(** The translation by (1, 2, 3) of the two targets in line with the
    view direction. *)
Lemma resolve_translation_when_exact_example :
  Forall (translation_exact (vec3 1 2 3) aim_ahead) [target_near; target_far]
  /\ hitTargetId (scan (translate_aim (vec3 1 2 3) aim_ahead)
                       (map (translate_target (vec3 1 2 3))
                            [target_near; target_far]))
     = hitTargetId (scan aim_ahead [target_near; target_far]).
Proof.
  assert (H : Forall (translation_exact (vec3 1 2 3) aim_ahead)
                     [target_near; target_far]).
  { repeat constructor; unfold v_sub, v_add; cbn; f_equal; lra. }
  split; [exact H|].
  exact (proj1 (proj2 (resolve_translation_when_exact
                         (vec3 1 2 3) aim_ahead [target_near; target_far] H))).
Defined.

(** With real numbers for coordinates no condition is needed: moving the
    camera and every target by the same vector changes neither whether
    the shot hits, nor the id reported as hit, nor the target chosen as
    the intended one (it is the same target, moved). *)
Theorem resolve_translation_invariant (v : Vec3) (a : Aim) (ts : list TargetEntity) :
  let s := scan a ts in
  let s' := scan (translate_aim v a) (map (translate_target v) ts) in
  hitFound s' = hitFound s
  /\ hitTargetId s' = hitTargetId s
  /\ option_map (@id R) (closestTarget s') = option_map (@id R) (closestTarget s)
  /\ closestTarget s' = option_map (translate_target v) (closestTarget s).
Proof.
  cbv zeta. unfold scan.
  change scan_start with (translate_scan v scan_start) at 1 3 5 7.
  rewrite scan_translate.
  cbn [translate_scan hitFound hitTargetId closestTarget].
  repeat split.
  destruct (closestTarget (fold_left (scan_step a) ts scan_start)); reflexivity.
Qed.

(** *** Concrete shots *)

Ltac unfold_geometry :=
  unfold hitTest, v_distanceTo, v_length, v_lengthSq, v_dot, v_sub, v_add,
         v_multiplyScalar;
  cbn [camera_position camera_worldDirection position radius vec_x vec_y vec_z
       aim_ahead aim_back target_near target_far target_aside];
  js_real.

Lemma hitTest_near : hitTest aim_ahead target_near = true.
Proof.
  unfold_geometry. apply Rltb_true.
  match goal with |- sqrt ?e < _ => replace e with 0 by lra end.
  rewrite sqrt_0. lra.
Qed.

Lemma hitTest_far : hitTest aim_ahead target_far = true.
Proof.
  unfold_geometry. apply Rltb_true.
  match goal with |- sqrt ?e < _ => replace e with 0 by lra end.
  rewrite sqrt_0. lra.
Qed.

(** Two targets in line with the shot both pass the hit test; the id
    reported is that of the second one met by the loop, not of the first. *)
Lemma first_hit_not_reported :
  filter (hitTest aim_ahead) [target_near; target_far] = [target_near; target_far]
  /\ hitFound (scan aim_ahead [target_near; target_far]) = true
  /\ hitTargetId (scan aim_ahead [target_near; target_far]) = "far"%string
  /\ hitTargetId (scan aim_ahead [target_near; target_far]) <> id target_near.
Proof.
  assert (F : filter (hitTest aim_ahead) [target_near; target_far]
              = [target_near; target_far]).
  { cbn [filter]. rewrite hitTest_near, hitTest_far. reflexivity. }
  pose proof (scan_last_hit aim_ahead [target_near; target_far]) as H.
  rewrite F in H. cbn [last_opt rev app] in H. destruct H as [Hf Hid].
  rewrite Hid. repeat split; trivial. cbn. discriminate.
Qed.

Lemma hitTest_aside_back : hitTest aim_back target_aside = false.
Proof.
  unfold_geometry. apply Rltb_false.
  match goal with |- ~ sqrt ?e < _ => replace e with (3 * 3) by lra end.
  rewrite sqrt_square; lra.
Qed.

(** A shot fired with the back to the target: the plane through the
    target lies behind the camera, the plane intersection fails, and the
    record appended carries all four offset fields, computed from the
    vector (0, 0, 0) that the failed intersection left untouched. *)
Lemma plane_behind_camera_miss_has_offsets (rt : @Runtime R) (props : @Game3DProps R) :
  fst (intersectPlane (raycaster_ray aim_back)
         (setFromNormalAndCoplanarPoint (camera_worldDirection aim_back)
                                        (position target_aside))
         (vec3 0 0 0)) = None
  /\ shotDataRef (handleShoot rt props aim_back
                    (mkController [target_aside] 0%nat 0%nat [] 0%nat))
     = [mkShot 1000 false None (Some 3) (Some 0) (Some 5) (Some 0)].
Proof.
  assert (P : intersectPlane (raycaster_ray aim_back)
                (setFromNormalAndCoplanarPoint (camera_worldDirection aim_back)
                                               (position target_aside))
                (vec3 0 0 0) = (None, vec3 0 0 0)).
  { unfold intersectPlane, distanceToPlane, distanceToPoint,
      setFromNormalAndCoplanarPoint, v_dot.
    cbn [raycaster_ray camera_worldDirection aim_back position target_aside
         normal constant direction origin vec_x vec_y vec_z].
    js_real. rewrite Reqb_false by lra. rewrite Rleb_false by lra. reflexivity. }
  assert (S : scan aim_back [target_aside]
              = mkScan false EmptyString (Some target_aside)
                       (Some (angleOf aim_back target_aside))).
  { unfold scan. cbn [fold_left]. unfold scan_step. rewrite hitTest_aside_back.
    reflexivity. }
  split; [rewrite P; reflexivity|].
  unfold handleShoot. cbn [targets]. rewrite S.
  cbn [hitFound closestTarget shotDataRef]. unfold missRecord.
  replace (lit 0) with 0 by (js_real; lra). rewrite P.
  unfold truthy_object, push, v_length, v_lengthSq, v_dot, v_sub.
  cbn [snd app now aim_back camera_right camera_up position velocity
       target_aside vec_x vec_y vec_z].
  js_real. repeat f_equal; try lra.
  replace ((0 - 3) * (0 - 3) + (0 - 0) * (0 - 0) + (0 - -4) * (0 - -4))
    with (5 * 5) by lra.
  apply sqrt_square. lra.
Qed.

(** With a random source that repeats itself the three targets of a
    gridshot session get one and the same id: the second and the third
    spawn assign an id that a live target already has. *)
Lemma spawn_repeats_id :
  map (@id R) (targets (mount repeating_runtime (mkProps GRIDSHOT 1)))
  = ["i"; "i"; "i"]%string.
Proof. reflexivity. Qed.

(** *** The analysis of a tracking session *)

Lemma lit_zero : @lit R R_number 0%Q = 0.
Proof. js_real. lra. Qed.

Lemma is_overshoot_sign_matches (m : @ShotData R) :
  is_overshoot m = sign_matches m.
Proof.
  unfold is_overshoot, sign_matches, positive, negative.
  rewrite lit_zero. cbn [lt R_number].
  destruct (targetVelocityX m) as [v|]; [|reflexivity].
  destruct (relativeX m) as [x|]; [reflexivity|].
  rewrite !andb_false_r. reflexivity.
Qed.

Lemma is_undershoot_sign_opposes (m : @ShotData R) :
  is_undershoot m = sign_opposes m.
Proof.
  unfold is_undershoot, sign_opposes, positive, negative.
  rewrite lit_zero. cbn [lt R_number].
  destruct (targetVelocityX m) as [v|]; [|reflexivity].
  destruct (relativeX m) as [x|]; [reflexivity|].
  rewrite !andb_false_r. reflexivity.
Qed.

Lemma filter_filter_implied (A : Type) (f g : A -> bool) (l : list A) :
  (forall x, f x = true -> g x = true) ->
  filter f (filter g l) = filter f l.
Proof.
  intros H. induction l as [|x l IH]; cbn [filter]; [reflexivity|].
  destruct (g x) eqn:G; cbn [filter].
  - rewrite IH. reflexivity.
  - destruct (f x) eqn:F; [rewrite (H x F) in G; discriminate | exact IH].
Qed.

Lemma filter_ext_eq (A : Type) (f g : A -> bool) (l : list A) :
  (forall x, f x = g x) -> filter f l = filter g l.
Proof.
  intros H. induction l as [|x l IH]; cbn [filter]; [reflexivity|].
  rewrite H, IH. reflexivity.
Qed.

Lemma tracking_counts (st : @SessionStats R) :
  stats_scenario st = TRACKING ->
  overshoots (analysis st)
  = List.length (filter sign_matches
                   (filter (fun s => negb (hit s)) (stats_missData st)))
  /\ undershoots (analysis st)
     = List.length (filter sign_opposes
                      (filter (fun s => negb (hit s)) (stats_missData st))).
Proof.
  intros Hsc. unfold analysis. rewrite Hsc. cbn [ScenarioType_eqb].
  destruct (filter (fun s => negb (hit s)) (stats_missData st)) as [|m ms] eqn:E.
  - cbn. split; reflexivity.
  - cbn [List.length Nat.eqb overshoots undershoots].
    rewrite (filter_ext_eq _ _ _ _ is_overshoot_sign_matches).
    rewrite (filter_ext_eq _ _ _ _ is_undershoot_sign_opposes).
    rewrite !filter_filter_implied; [split; reflexivity | |].
    + intros x. unfold sign_opposes, defined.
      destruct (targetVelocityX x); [reflexivity | discriminate].
    + intros x. unfold sign_matches, defined.
      destruct (targetVelocityX x); [reflexivity | discriminate].
Qed.

Lemma tracking_recommendation (st : @SessionStats R) :
  stats_scenario st = TRACKING ->
  filter (fun s => negb (hit s)) (stats_missData st) <> [] ->
  recommendation (analysis st)
  = if (of_nat (overshoots (analysis st))
        >? of_nat (undershoots (analysis st)) * lit 1.5)%js
       && (3 <? overshoots (analysis st))%nat
    then msg_overshoot
    else if (of_nat (undershoots (analysis st))
             >? of_nat (overshoots (analysis st)) * lit 1.5)%js
            && (3 <? undershoots (analysis st))%nat
    then msg_undershoot
    else msg_balanced.
Proof.
  intros Hsc Hne. unfold analysis. rewrite Hsc. cbn [ScenarioType_eqb].
  destruct (filter (fun s => negb (hit s)) (stats_missData st)) as [|m ms];
    [contradiction|].
  reflexivity.
Qed.

Lemma filter_all (A : Type) (f : A -> bool) (l : list A) :
  Forall (fun x => f x = true) l -> filter f l = l.
Proof.
  induction 1 as [|x l Hx _ IH]; cbn [filter]; [reflexivity|].
  rewrite Hx, IH. reflexivity.
Qed.

Lemma filter_none (A : Type) (f : A -> bool) (l : list A) :
  Forall (fun x => f x = false) l -> filter f l = [].
Proof.
  induction 1 as [|x l Hx _ IH]; cbn [filter]; [reflexivity|].
  rewrite Hx, IH. reflexivity.
Qed.

Lemma ahead_sign_matches (m : @ShotData R) :
  (exists x v, relativeX m = Some x /\ targetVelocityX m = Some v /\ 0 < x /\ 0 < v) ->
  sign_matches m = true /\ sign_opposes m = false.
Proof.
  intros (x & v & Hx & Hv & Px & Pv). unfold sign_matches, sign_opposes.
  rewrite Hx, Hv. rewrite !(Rltb_true 0) by assumption.
  rewrite !(Rltb_false _ 0) by lra. split; reflexivity.
Qed.

(** C6: under the tracking scenario [overshoots] counts the misses whose
    target velocity is defined and whose horizontal offset has the sign of
    the velocity, [undershoots] those where the signs are opposite; five
    misses that all lie ahead of a target moving to the right count as five
    overshoots and no undershoot, and the recommendation is the overshoot
    message. *)
Theorem tracking_overshoots (st : @SessionStats R) :
  stats_scenario st = TRACKING ->
  let misses := filter (fun s => negb (hit s)) (stats_missData st) in
  overshoots (analysis st) = List.length (filter sign_matches misses)
  /\ undershoots (analysis st) = List.length (filter sign_opposes misses)
  /\ (List.length misses = 5%nat ->
      Forall (fun m => exists relative_x velocity_x,
                  relativeX m = Some relative_x
                  /\ targetVelocityX m = Some velocity_x
                  /\ 0 < relative_x /\ 0 < velocity_x) misses ->
      overshoots (analysis st) = 5%nat
      /\ undershoots (analysis st) = 0%nat
      /\ recommendation (analysis st) = msg_overshoot).
Proof.
  intros Hsc. cbv zeta. destruct (tracking_counts st Hsc) as [Ho Hu].
  split; [exact Ho|]. split; [exact Hu|]. intros Hlen Hall.
  assert (Ho5 : overshoots (analysis st) = 5%nat).
  { rewrite Ho, filter_all; [exact Hlen|].
    eapply Forall_impl; [|exact Hall]. intros m Hm.
    apply (ahead_sign_matches m Hm). }
  assert (Hu0 : undershoots (analysis st) = 0%nat).
  { rewrite Hu, filter_none; [reflexivity|].
    eapply Forall_impl; [|exact Hall]. intros m Hm.
    apply (ahead_sign_matches m Hm). }
  split; [exact Ho5|]. split; [exact Hu0|].
  rewrite tracking_recommendation; [|exact Hsc|].
  - rewrite Ho5, Hu0. js_real. rewrite Rltb_true by (simpl INR; lra).
    reflexivity.
  - intros E. rewrite E in Hlen. discriminate.
Qed.

Lemma tracking_overshoots_example :
  overshoots (analysis five_misses_ahead) = 5%nat
  /\ undershoots (analysis five_misses_ahead) = 0%nat
  /\ recommendation (analysis five_misses_ahead) = msg_overshoot.
Proof.
  destruct (tracking_overshoots five_misses_ahead eq_refl) as (_ & _ & H).
  apply H; [reflexivity|].
  cbn [five_misses_ahead stats_missData filter miss_ahead hit negb].
  repeat constructor;
    (exists 0.7, 3; cbn [relativeX targetVelocityX];
     repeat split; lra).
Defined.

Lemma analysis_no_miss_example :
  analysis only_hits
  = mkAnalysis 0 0 0 0 0 0 "Perfect run! Your sensitivity is well-tuned.".
Proof. apply (analysis_no_miss only_hits). reflexivity. Defined.

Lemma finish_accuracy_example :
  stats_accuracy (finish (mkProps GRIDSHOT 1) (mkController [] 3 4 [] 0))
  = (of_nat 3 / of_nat 4 * lit 100)%js.
Proof.
  apply (finish_shotsHit_is_score (mkProps GRIDSHOT 1) (mkController [] 3 4 [] 0)).
  cbn. lia.
Defined.

End Reals.

(** ** The concrete scenes, run in double precision

    The model computes on IEEE doubles; [Math.acos] stays a parameter and
    is not needed for what follows. *)

Section Doubles.

Variable acos : PrimFloat.float -> PrimFloat.float.

Let doubles : JsNumber PrimFloat.float := float_number acos.

(** The bounce example: the velocity becomes -3 and the position the
    double next above 7.6 (it prints as 7.6000000000000005). *)
Example doubles_bounce :
  bounce (N := doubles) (float_lit 0.1) (double_target "edge" 7.9 1.5 (-10) 3)
  = mkTarget "edge"
             (vec3 (PrimFloat.next_up (float_lit 7.6)) (float_lit 1.5)
                   (float_lit (-10)))
             true (double_vec (-3) 0 0) (float_lit 0.5).
Proof. vm_compute. reflexivity. Qed.

(** A frame of six seconds takes the target to -10.1. *)
Example doubles_long_frame :
  map (fun t => vec_x (position t))
      (targets (useFrame (N := doubles) (mkProps TRACKING (float_lit 1))
                         (float_lit 6)
                         (mkController [double_target "edge" 7.9 1.5 (-10) 3]
                                       0 0 [] 1)))
  = [float_lit (-10.1)].
Proof. vm_compute. reflexivity. Qed.

(** Two targets in line: the second one is reported. *)
Example doubles_second_hit_reported :
  hitTargetId (scan (N := doubles) (double_aim (double_vec 0 0 (-1)))
                    [double_target "near" 0 0 (-10) 0;
                     double_target "far" 0 0 (-12) 0])
  = "far"%string.
Proof.
  pose proof (scan_last_hit (N := doubles) (double_aim (double_vec 0 0 (-1)))
                [double_target "near" 0 0 (-10) 0;
                 double_target "far" 0 0 (-12) 0]) as H.
  assert (F : filter (hitTest (N := doubles) (double_aim (double_vec 0 0 (-1))))
                [double_target "near" 0 0 (-10) 0;
                 double_target "far" 0 0 (-12) 0]
              = [double_target "near" 0 0 (-10) 0;
                 double_target "far" 0 0 (-12) 0])
    by (vm_compute; reflexivity).
  rewrite F in H. apply H.
Qed.

(** A repeating random source: three targets, one id. *)
Example doubles_one_id :
  map (@id PrimFloat.float)
      (targets (mount (N := doubles) double_runtime
                      (mkProps GRIDSHOT (float_lit 1))))
  = ["i"; "i"; "i"]%string.
Proof. vm_compute. reflexivity. Qed.

(** In doubles the translation by (1, 2, 3) of the two targets in line
    with the view direction is exact: no sum or difference rounds. *)
Example doubles_translation_exact :
  Forall (translation_exact (N := doubles) (double_vec 1 2 3)
                            (double_aim (double_vec 0 0 (-1))))
         [double_target "near" 0 0 (-10) 0; double_target "far" 0 0 (-12) 0].
Proof. repeat constructor; vm_compute; reflexivity. Qed.

(** Translation invariance is a law of exact arithmetic.  In doubles a
    displacement of 10^18 absorbs the coordinates of the scene: the target
    three units off the line of sight, a miss where it stands, lands on the
    camera and is hit. *)
Example doubles_translation_absorbs :
  hitTest (N := doubles) (double_aim (double_vec 0 0 (-1)))
          (double_target "aside" 3 0 (-4) 0) = false
  /\ hitTest (N := doubles)
       (translate_aim (N := doubles) double_far_away
                      (double_aim (double_vec 0 0 (-1))))
       (translate_target (N := doubles) double_far_away
                         (double_target "aside" 3 0 (-4) 0)) = true.
Proof. split; vm_compute; reflexivity. Qed.

(** Five misses ahead of a target that moves to the right. *)
Example doubles_five_overshoots :
  analysis (N := doubles)
    (mkStats 0 5 0 (float_lit 0)
             [double_miss 1 0.7 3; double_miss 2 0.7 3; double_miss 3 0.7 3;
              double_miss 4 0.7 3; double_miss 5 0.7 3]
             TRACKING (float_lit 1))
  = mkAnalysis 0 5 5 0 5 0 msg_overshoot.
Proof. vm_compute. reflexivity. Qed.

End Doubles.

(** In doubles a translation can change the outcome of a shot.  The
    target "rim" touches the line of sight: the distance from its centre
    is 0.5, its radius, and the shot misses.  Moved by 0.2 along the X
    axis the camera stands at x = 0.2 and the target at 0.5 + 0.2, which
    is 0.7; the distance becomes 0.7 - 0.2, which is 0.49999999999999994
    in doubles, and the shot hits "rim".  [Math.acos] takes no part in
    it. *)
Lemma translation_turns_miss_into_hit :
  (forall acos : PrimFloat.float -> PrimFloat.float,
      hitFound (scan (N := float_number acos) (double_aim (double_vec 0 0 (-1)))
                     [double_rim_target]) = false)
  /\ (forall acos : PrimFloat.float -> PrimFloat.float,
         hitFound (scan (N := float_number acos)
                        (translate_aim (N := float_number acos) double_step_aside
                                       (double_aim (double_vec 0 0 (-1))))
                        (map (translate_target (N := float_number acos)
                                               double_step_aside)
                             [double_rim_target])) = true
         /\ hitTargetId (scan (N := float_number acos)
                              (translate_aim (N := float_number acos)
                                             double_step_aside
                                             (double_aim (double_vec 0 0 (-1))))
                              (map (translate_target (N := float_number acos)
                                                     double_step_aside)
                                   [double_rim_target])) = "rim"%string).
Proof.
  split; intros acos.
  - pose proof (scan_last_hit (N := float_number acos)
                  (double_aim (double_vec 0 0 (-1))) [double_rim_target]) as H.
    assert (F : filter (hitTest (N := float_number acos)
                                (double_aim (double_vec 0 0 (-1))))
                       [double_rim_target] = [])
      by (vm_compute; reflexivity).
    rewrite F in H. apply H.
  - pose proof (scan_last_hit (N := float_number acos)
                  (translate_aim (N := float_number acos) double_step_aside
                                 (double_aim (double_vec 0 0 (-1))))
                  (map (translate_target (N := float_number acos)
                                         double_step_aside)
                       [double_rim_target])) as H.
    assert (F : last_opt
                  (filter (hitTest (N := float_number acos)
                             (translate_aim (N := float_number acos)
                                            double_step_aside
                                            (double_aim (double_vec 0 0 (-1)))))
                          (map (translate_target (N := float_number acos)
                                                 double_step_aside)
                               [double_rim_target]))
                = Some (translate_target (N := float_number acos)
                                         double_step_aside double_rim_target))
      by (vm_compute; reflexivity).
    rewrite F in H. exact H.
Qed.

(** ** Further properties, for every carrier of numbers *)

Section Sessions.

Context {num : Type} {N : JsNumber num}.
Variable rt : @Runtime num.
Variable props : @Game3DProps num.

(** What holds after the mount and is kept by every event holds throughout
    a session. *)
Lemma run_invariant (P : @Controller num -> Prop) :
  P (mount rt props) ->
  (forall c e, P c -> P (step rt props c e)) ->
  forall events, P (run rt props events).
Proof.
  intros H0 Hstep events. unfold run. revert H0. generalize (mount rt props).
  induction events as [|e events IH]; intros c Hc; cbn [fold_left].
  - exact Hc.
  - apply IH. apply Hstep. exact Hc.
Qed.

Lemma filter_snoc (A : Type) (f : A -> bool) (l : list A) (x : A) :
  filter f (l ++ [x]) = filter f l ++ (if f x then [x] else []).
Proof. rewrite filter_app. reflexivity. Qed.

(** The record a shot appends and what the shot does to the score. *)
Lemma handleShoot_record (a : Aim) (c : Controller) :
  exists r : ShotData,
    shotDataRef (handleShoot rt props a c) = shotDataRef c ++ [r]
    /\ shotsFiredRef (handleShoot rt props a c) = S (shotsFiredRef c)
    /\ hit r = hitFound (scan a (targets c))
    /\ (if hit r
        then scoreRef (handleShoot rt props a c) = S (scoreRef c) /\ hit_shape r
        else scoreRef (handleShoot rt props a c) = scoreRef c /\ miss_shape r).
Proof.
  unfold handleShoot. destruct (hitFound (scan a (targets c))) eqn:Hf.
  - destruct (spawnTarget _ _ _ _ _) as [spawned n].
    eexists. cbn [push shotDataRef shotsFiredRef scoreRef hit].
    repeat split. eexists. reflexivity.
  - destruct (closestTarget (scan a (targets c))) as [ct|].
    + destruct (missRecord_defined a ct) as (x & y & d & E). rewrite E.
      eexists. cbn [push shotDataRef shotsFiredRef scoreRef hit].
      repeat split. left. do 4 eexists. repeat split.
    + eexists. cbn [push shotDataRef shotsFiredRef scoreRef hit].
      repeat split. right. repeat split.
Qed.

Lemma run_log_invariant (events : list Event) :
  scoreRef (run rt props events)
  = List.length (filter (@hit num) (shotDataRef (run rt props events)))
  /\ shotsFiredRef (run rt props events)
     = List.length (shotDataRef (run rt props events))
  /\ Forall (fun r => hit_shape r \/ miss_shape r)
            (shotDataRef (run rt props events)).
Proof.
  apply (run_invariant
           (fun c => scoreRef c = List.length (filter (@hit num) (shotDataRef c))
                     /\ shotsFiredRef c = List.length (shotDataRef c)
                     /\ Forall (fun r => hit_shape r \/ miss_shape r)
                               (shotDataRef c))).
  - destruct (mount_log rt props) as [Hl Hn]. rewrite Hl.
    unfold mount.
    destruct (scenario props);
      match goal with |- context [let (_, _) := ?m in _] => destruct m end;
      cbn; auto.
  - intros c e (Hs & Hn & Hall). destruct e as [delta|a]; cbn [step].
    + destruct (useFrame_keeps_log props delta c) as [Hl Hf].
      rewrite Hl, Hf. unfold useFrame.
      destruct (ScenarioType_eqb _ _); cbn [scoreRef]; auto.
    + destruct (handleShoot_record a c) as (r & Hl & Hf & _ & Hr).
      rewrite Hl, Hf, filter_snoc, !length_app.
      destruct (hit r) eqn:Hh; destruct Hr as [Hsc Hshape]; rewrite Hsc.
      * cbn [List.length]. repeat split; try lia.
        apply Forall_app. split; [exact Hall|]. constructor; auto.
      * cbn [List.length]. repeat split; try lia.
        apply Forall_app. split; [exact Hall|]. constructor; auto.
Qed.

Lemma count_hits_and_misses (l : list (@ShotData num)) :
  (List.length (filter (@hit num) l)
   + List.length (filter (fun s => negb (hit s)) l))%nat = List.length l.
Proof.
  induction l as [|r l IH]; cbn [filter List.length]; [reflexivity|].
  destruct (hit r); cbn [negb List.length]; lia.
Qed.

(** X1: throughout a session the score is the number of hit records of
    the log and the shot counter its length, so that the shots fired minus
    the score is the number of miss records; every record has the shape of
    a hit or of a miss. *)
Theorem session_score_counts_hits (events : list Event) :
  let c := run rt props events in
  scoreRef c = List.length (filter (@hit num) (shotDataRef c))
  /\ shotsFiredRef c = List.length (shotDataRef c)
  /\ (shotsFiredRef c - scoreRef c)%nat
     = List.length (filter (fun s => negb (hit s)) (shotDataRef c))
  /\ (scoreRef c <= shotsFiredRef c)%nat
  /\ Forall (fun r => hit_shape r \/ miss_shape r) (shotDataRef c).
Proof.
  cbv zeta. destruct (run_log_invariant events) as (Hs & Hn & Hall).
  pose proof (count_hits_and_misses (shotDataRef (run rt props events))) as Hc.
  repeat split; try assumption; lia.
Qed.

Lemma last_opt_In (A : Type) (l : list A) (x : A) :
  last_opt l = Some x -> In x l.
Proof.
  unfold last_opt. destruct (rev l) as [|y l'] eqn:E; intros H; inversion H; subst.
  apply in_rev. rewrite E. left. reflexivity.
Qed.

(** A hit found by the loop is a live target that passes the hit test. *)
Lemma scan_hit_target (a : Aim) (ts : list TargetEntity) :
  hitFound (scan a ts) = true ->
  exists t, In t ts /\ hitTest a t = true /\ hitTargetId (scan a ts) = id t.
Proof.
  intros Hf. pose proof (scan_last_hit a ts) as H.
  destruct (last_opt (filter (hitTest a) ts)) as [t|] eqn:E.
  - apply last_opt_In in E. apply filter_In in E. destruct E as [Hin Ht].
    exists t. destruct H as [_ Hid]. auto.
  - destruct H as [H _]. rewrite H in Hf. discriminate.
Qed.

Lemma filter_length_lt (A : Type) (f : A -> bool) (l : list A) (x : A) :
  In x l -> f x = false -> (List.length (filter f l) < List.length l)%nat.
Proof.
  induction l as [|y l IH]; intros Hin Hx; [contradiction|].
  cbn [filter]. destruct Hin as [->|Hin].
  - rewrite Hx. pose proof (filter_length_le f l). cbn [List.length]. lia.
  - specialize (IH Hin Hx). destruct (f y); cbn [List.length]; lia.
Qed.


(** X2: a shot that hits records the id of a live target that passes the
    hit test, adds one to the score, and replaces every live target of
    that id by one new target put at the end of the list; the targets that
    stay keep their order.  The new target is the one [spawnTarget] makes
    for the targets that stay, at a random position, with the random
    numbers that come next; its id is cut from the first of them. *)
Theorem hit_replaces_live_target (a : Aim) (c : Controller) :
  hitFound (scan a (targets c)) = true ->
  exists t : TargetEntity,
    In t (targets c)
    /\ hitTest a t = true
    /\ shotDataRef (handleShoot rt props a c)
       = shotDataRef c ++ [mkShot (now a) true (Some (id t)) None None None None]
    /\ scoreRef (handleShoot rt props a c) = S (scoreRef c)
    /\ (let survivors :=
          filter (fun u => negb (String.eqb (id u) (id t))) (targets c) in
        let spawned := spawnTarget rt props survivors None (randomCalls c) in
        targets (handleShoot rt props a c) = survivors ++ [fst (fst spawned)]
        /\ id (fst (fst spawned))
           = substring 2 9 (toString36 rt (random_value rt (randomCalls c)))
        /\ randomCalls (handleShoot rt props a c) = snd spawned)
    /\ (List.length (targets (handleShoot rt props a c))
        <= List.length (targets c))%nat.
Proof.
  intros Hf. destruct (scan_hit_target a (targets c) Hf) as (t & Hin & Ht & Hid).
  pose proof (spawnTarget_result rt props
                (filter (fun u => negb (String.eqb (id u) (id t))) (targets c))
                None (randomCalls c)) as [Hi Hl].
  exists t. cbv zeta. unfold handleShoot. rewrite Hf, Hid.
  destruct (spawnTarget rt props _ None (randomCalls c)) as [[newTarget l] n].
  cbn [fst snd] in Hi, Hl.
  cbn [shotDataRef scoreRef targets randomCalls push fst snd]. rewrite Hl.
  repeat split; try assumption.
  rewrite length_app. cbn [List.length].
  pose proof (filter_length_lt _ (fun u => negb (String.eqb (id u) (id t)))
                (targets c) t Hin) as Hlt.
  cbn beta in Hlt. rewrite String.eqb_refl in Hlt. specialize (Hlt eq_refl). lia.
Qed.

Lemma filter_other_ids (t : TargetEntity) (l : list TargetEntity) :
  NoDup (map (@id num) l) -> In t l ->
  S (List.length (filter (fun u => negb (String.eqb (id u) (id t))) l))
  = List.length l.
Proof.
  induction l as [|u l IH]; intros Hnd Hin; [contradiction|].
  cbn [map] in Hnd. inversion Hnd as [|? ? Hnotin Hnd']; subst.
  cbn [filter List.length]. destruct Hin as [->|Hin].
  - rewrite String.eqb_refl. cbn [negb]. f_equal.
    clear IH Hnd Hnd'. induction l as [|v l IH]; [reflexivity|].
    cbn [filter]. destruct (String.eqb (id v) (id t)) eqn:E.
    + apply String.eqb_eq in E. exfalso. apply Hnotin. left. exact E.
    + cbn [negb List.length]. f_equal. apply IH.
      intros H. apply Hnotin. right. exact H.
  - destruct (String.eqb (id u) (id t)) eqn:E.
    + apply String.eqb_eq in E. exfalso. apply Hnotin. rewrite E.
      apply in_map. exact Hin.
    + cbn [negb List.length]. f_equal. apply IH; assumption.
Qed.

(** X4: when the live targets have distinct ids, a hit leaves the number
    of targets as it was. *)
Theorem hit_keeps_pool_size (a : Aim) (c : Controller) :
  NoDup (map (@id num) (targets c)) ->
  hitFound (scan a (targets c)) = true ->
  List.length (targets (handleShoot rt props a c)) = List.length (targets c).
Proof.
  intros Hnd Hf.
  destruct (scan_hit_target a (targets c) Hf) as (t & Hin & _ & Hid).
  pose proof (spawnTarget_result rt props
                (filter (fun u => negb (String.eqb (id u) (id t))) (targets c))
                None (randomCalls c)) as [_ Hl].
  unfold handleShoot. rewrite Hf, Hid.
  destruct (spawnTarget rt props _ None (randomCalls c)) as [[newTarget l] n].
  cbn [fst snd] in Hl. cbn [targets snd]. rewrite Hl, length_app.
  cbn [List.length]. rewrite <- (filter_other_ids t (targets c) Hnd Hin). lia.
Qed.

End Sessions.

Section Pool.

Context {num : Type} {N : JsNumber num}.
Variable rt : @Runtime num.
Variable props : @Game3DProps num.

(** The calls of [Math.random] a spawn makes: one for the id, three for a
    random position, two for the velocity of a tracking target. *)
Lemma spawnTarget_calls (currentList : list TargetEntity)
  (fixedPos : option Vec3) (n : nat) :
  snd (spawnTarget rt props currentList fixedPos n)
  = (n + 1
     + (match fixedPos with Some _ => 0 | None => 3 end)
     + (if ScenarioType_eqb (scenario props) TRACKING then 2 else 0))%nat.
Proof.
  unfold spawnTarget, bind, Math_random, ret.
  destruct fixedPos; destruct (ScenarioType_eqb (scenario props) TRACKING);
    cbn [snd]; lia.
Qed.

Lemma spawnTargets_result (k : nat) (currentList : list TargetEntity) (n : nat) :
  List.length (fst (spawnTargets rt props k currentList n))
  = (List.length currentList + k)%nat
  /\ snd (spawnTargets rt props k currentList n)
     = (n + k * (4 + (if ScenarioType_eqb (scenario props) TRACKING
                      then 2 else 0)))%nat.
Proof.
  revert currentList n. induction k as [|k IH]; intros currentList n.
  - cbn. split; lia.
  - cbn [spawnTargets]. unfold bind.
    pose proof (spawnTarget_result rt props currentList None n) as [_ Hl].
    pose proof (spawnTarget_calls currentList None n) as Hc.
    destruct (spawnTarget rt props currentList None n) as [p n'].
    cbn [fst snd] in Hl, Hc. destruct (IH (snd p) n') as [IHl IHc].
    rewrite IHl, IHc, Hl, Hc, length_app. cbn [List.length]. split; lia.
Qed.

Lemma mount_result :
  List.length (targets (mount rt props)) = initial_pool (scenario props)
  /\ randomCalls (mount rt props) = draws_at_mount (scenario props)
  /\ scoreRef (mount rt props) = 0%nat.
Proof.
  unfold mount.
  pose proof (spawnTargets_result 3 [] 0%nat) as H3.
  pose proof (spawnTarget_result rt props [] None 0%nat) as [_ Hl].
  pose proof (spawnTarget_calls [] None 0%nat) as Hc.
  pose proof (spawnTarget_result rt props []
                (Some (vec3 (lit 0) (lit 1.5) (lit (-10)))) 0%nat) as [_ Hlf].
  pose proof (spawnTarget_calls []
                (Some (vec3 (lit 0) (lit 1.5) (lit (-10)))) 0%nat) as Hcf.
  destruct (scenario props); cbn [ScenarioType_eqb] in *.
  - destruct (spawnTargets rt props 3 [] 0%nat) as [l n].
    cbn [fst snd targets randomCalls scoreRef initial_pool draws_at_mount] in *.
    destruct H3 as [H3l H3c]. rewrite H3l, H3c. repeat split.
  - unfold bind, ret.
    destruct (spawnTarget rt props [] (Some _) 0%nat) as [p n].
    cbn [fst snd targets randomCalls scoreRef initial_pool draws_at_mount] in *.
    rewrite Hlf, Hcf. repeat split.
  - unfold bind, ret.
    destruct (spawnTarget rt props [] None 0%nat) as [p n].
    cbn [fst snd targets randomCalls scoreRef initial_pool draws_at_mount] in *.
    rewrite Hl, Hc. repeat split.
Qed.


(** X5: [Math.random] is called by the mount effect (twelve times for
    gridshot, three for tracking, four for flicking) and by the respawn
    after a hit (six times for tracking, four otherwise), and by nothing
    else: misses and frames draw no random number. *)
Theorem random_calls_by_score (events : list Event) :
  randomCalls (run rt props events)
  = (draws_at_mount (scenario props)
     + draws_per_respawn (scenario props) * scoreRef (run rt props events))%nat.
Proof.
  destruct mount_result as (_ & Hm & Hs).
  apply (run_invariant rt props
           (fun c => randomCalls c
                     = (draws_at_mount (scenario props)
                        + draws_per_respawn (scenario props) * scoreRef c)%nat)).
  - rewrite Hm, Hs. lia.
  - intros c e Hc. destruct e as [delta|a]; cbn [step].
    + unfold useFrame. destruct (ScenarioType_eqb _ _); exact Hc.
    + unfold handleShoot. destruct (hitFound (scan a (targets c))).
      * pose proof (spawnTarget_calls
                      (filter (fun t => negb (String.eqb (id t)
                                 (hitTargetId (scan a (targets c))))) (targets c))
                      None (randomCalls c)) as Hn.
        destruct (spawnTarget rt props _ None (randomCalls c)) as [p n].
        cbn [snd randomCalls scoreRef] in *. rewrite Hn, Hc.
        destruct (scenario props); cbn; lia.
      * cbn [randomCalls scoreRef]. exact Hc.
Qed.

(** What the loop body does to the intended target. *)
Lemma scan_step_closest (a : Aim) (s : Scan) (t : TargetEntity) :
  (closestTarget (scan_step a s t), minAngularDist (scan_step a s t))
  = if match minAngularDist s with
       | None => true
       | Some m => lt (angleOf a t) m
       end
    then (Some t, Some (angleOf a t))
    else (closestTarget s, minAngularDist s).
Proof.
  unfold scan_step.
  destruct (hitTest a t); cbn [minAngularDist closestTarget];
    destruct (minAngularDist s) as [m|] eqn:Em; try reflexivity;
    destruct (lt (angleOf a t) m); cbn [minAngularDist closestTarget];
    rewrite ?Em; reflexivity.
Qed.

Lemma scan_intended (a : Aim) (ts : list TargetEntity) :
  match closestTarget (scan a ts) with
  | Some ct => In ct ts /\ minAngularDist (scan a ts) = Some (angleOf a ct)
  | None => ts = [] /\ minAngularDist (scan a ts) = None
  end.
Proof.
  induction ts as [|t ts IH] using rev_ind.
  - cbn. split; reflexivity.
  - rewrite scan_snoc.
    pose proof (scan_step_closest a (scan a ts) t) as E.
    destruct (closestTarget (scan a ts)) as [ct|].
    + destruct IH as [Hin Hmin]. rewrite Hmin in E.
      destruct (lt (angleOf a t) (angleOf a ct)); inversion E as [[Ec Em]];
        rewrite Ec; (split; [|exact Em]); apply in_or_app.
      * right. left. reflexivity.
      * left. exact Hin.
    + destruct IH as [_ Hmin]. rewrite Hmin in E.
      inversion E as [[Ec Em]]. rewrite Ec. split; [|exact Em].
      apply in_or_app. right. left. reflexivity.
Qed.

(** The intended target is one of the targets the loop went through, and
    the loop finds one whenever the list is not empty, hit or miss. *)
Lemma intended_target_is_live (a : Aim) (ts : list TargetEntity) :
  (closestTarget (scan a ts) = None <-> ts = [])
  /\ (forall ct, closestTarget (scan a ts) = Some ct -> In ct ts).
Proof.
  pose proof (scan_intended a ts) as H.
  destruct (closestTarget (scan a ts)) as [ct|].
  - destruct H as [Hin _]. split.
    + split; [discriminate|]. intros ->. contradiction.
    + intros ct' E. inversion E; subst. exact Hin.
  - destruct H as [Hnil _]. split.
    + split; auto.
    + discriminate.
Qed.

End Pool.

Section Screens.

Context {num : Type} {N : JsNumber num}.
Variable rt : @Runtime num.
Variable props : @Game3DProps num.


Lemma filter_idempotent (A : Type) (f : A -> bool) (l : list A) :
  filter f (filter f l) = filter f l.
Proof.
  induction l as [|x l IH]; cbn [filter]; [reflexivity|].
  destruct (f x) eqn:E; cbn [filter]; rewrite ?E, IH; reflexivity.
Qed.

(** X14: the analysis reads the miss records and the scenario of the
    stats and nothing else: the hit records, the score, the counters, the
    accuracy and the sensitivity can be replaced by anything. *)
Theorem analysis_reads_misses_only (stats : SessionStats)
  (score shotsFired shotsHit : nat) (accuracy sensitivity : num) :
  analysis stats
  = analysis (mkStats score shotsFired shotsHit accuracy
                      (filter (fun s => negb (hit s)) (stats_missData stats))
                      (stats_scenario stats) sensitivity).
Proof.
  unfold analysis. cbn [stats_missData stats_scenario].
  rewrite filter_idempotent. reflexivity.
Qed.

Lemma messages_differ :
  msg_balanced <> msg_perfect /\ msg_overshoot <> msg_perfect
  /\ msg_undershoot <> msg_perfect /\ msg_left <> msg_perfect
  /\ msg_right <> msg_perfect /\ msg_vertical <> msg_perfect
  /\ msg_scatter <> msg_perfect.
Proof. repeat split; intros H; vm_compute in H; discriminate H. Qed.

(** X15: the recommendation is the "Perfect run" message exactly when
    the log has no miss; otherwise a tracking session gets the overshoot,
    the undershoot or the balanced message, and any other session the
    left, right, vertical-drift, scatter or balanced message. *)
Theorem recommendation_cases (stats : SessionStats) :
  (recommendation (analysis stats) = msg_perfect
   <-> filter (fun s => negb (hit s)) (stats_missData stats) = [])
  /\ (filter (fun s => negb (hit s)) (stats_missData stats) <> [] ->
      if ScenarioType_eqb (stats_scenario stats) TRACKING
      then In (recommendation (analysis stats))
              [msg_overshoot; msg_undershoot; msg_balanced]
      else In (recommendation (analysis stats))
              [msg_left; msg_right; msg_vertical; msg_scatter; msg_balanced]).
Proof.
  assert (C : filter (fun s => negb (hit s)) (stats_missData stats) <> [] ->
              if ScenarioType_eqb (stats_scenario stats) TRACKING
              then In (recommendation (analysis stats))
                      [msg_overshoot; msg_undershoot; msg_balanced]
              else In (recommendation (analysis stats))
                      [msg_left; msg_right; msg_vertical; msg_scatter; msg_balanced]).
  { intros Hne. unfold analysis.
    destruct (filter (fun s => negb (hit s)) (stats_missData stats)) as [|m ms];
      [contradiction|].
    cbn [List.length Nat.eqb recommendation].
    destruct (ScenarioType_eqb (stats_scenario stats) TRACKING).
    - repeat match goal with
             | |- context [if ?b then _ else _] => destruct b
             end; cbn [In]; auto.
    - repeat match goal with
             | |- context [if ?b then _ else _] => destruct b
             end; cbn [In]; auto 10. }
  split; [|exact C]. split.
  - intros Hp.
    destruct (filter (fun s => negb (hit s)) (stats_missData stats)) as [|m ms] eqn:E;
      [reflexivity|].
    exfalso. assert (Hne : m :: ms <> []) by discriminate.
    specialize (C Hne). rewrite Hp in C.
    destruct messages_differ as (H1 & H2 & H3 & H4 & H5 & H6 & H7).
    destruct (ScenarioType_eqb (stats_scenario stats) TRACKING); cbn [In] in C;
      intuition congruence.
  - intros E. unfold analysis. rewrite E. reflexivity.
Qed.

End Screens.

Section Shells.

Context {num : Type} {N : JsNumber num}.
Variable rt : @Runtime num.
Variable props : @Game3DProps num.

(** Once [onFinish] has been called nothing changes any more. *)
Lemma game_after_finish (events : list GameEvent) (g : Game) :
  finished g <> [] ->
  fold_left (game_step rt props) events g = g.
Proof.
  intros Hf. induction events as [|e events IH]; cbn [fold_left];
    [reflexivity|].
  unfold game_step at 2. destruct (finished g); [contradiction|]. exact IH.
Qed.

(** The countdown from any positive number of seconds. *)
Lemma game_countdown (events : list GameEvent) (g : Game) (n : nat) :
  countdown g = mkCountdown (S n) true ->
  finished g = [] ->
  let g' := fold_left (game_step rt props) events g in
  timeLeft (countdown g') = (S n - seconds events)%nat
  /\ ((seconds events <= n)%nat ->
      timer (countdown g') = true /\ finished g' = [])
  /\ ((S n <= seconds events)%nat ->
      timer (countdown g') = false
      /\ finished g'
         = [finish props (fold_left (step rt props)
                                    (inputs_before (S n) events)
                                    (controller g))]).
Proof.
  cbv zeta. revert g n.
  induction events as [|e events IH]; intros g n Hk Hf.
  - cbn [fold_left seconds filter List.length]. rewrite Hk, Hf. cbn.
    repeat split; intros; try reflexivity; lia.
  - cbn [fold_left]. destruct e as [e|].
    + assert (E : game_step rt props g (Input e)
                  = mkGame (step rt props (controller g) e) (countdown g) [])
        by (unfold game_step; rewrite Hf; reflexivity).
      rewrite E.
      specialize (IH (mkGame (step rt props (controller g) e) (countdown g)
                             []) n Hk eq_refl).
      cbn [controller] in IH. cbn [inputs_before fold_left].
      unfold seconds in *. cbn [filter]. exact IH.
    + assert (Es : seconds (Second :: events) = S (seconds events))
        by reflexivity.
      rewrite Es. destruct n as [|n].
      * assert (E : game_step rt props g Second
                    = mkGame (controller g) (mkCountdown 0 false)
                             [finish props (controller g)])
          by (unfold game_step, interval; rewrite Hf, Hk; reflexivity).
        rewrite E, game_after_finish by (cbn [finished]; discriminate).
        cbn [countdown finished timeLeft timer inputs_before fold_left].
        repeat split; intros; try reflexivity; lia.
      * assert (E : game_step rt props g Second
                    = mkGame (controller g) (mkCountdown (S n) true) [])
          by (unfold game_step, interval; rewrite Hf, Hk; cbn;
              rewrite ?Nat.sub_0_r; reflexivity).
        rewrite E.
        destruct (IH (mkGame (controller g) (mkCountdown (S n) true) []) n
                     eq_refl eq_refl) as (H1 & H2 & H3).
        cbn [controller] in H3. cbn [inputs_before].
        repeat split.
        -- rewrite H1. lia.
        -- apply H2. lia.
        -- apply H2. lia.
        -- apply H3. lia.
        -- apply H3. lia.
Qed.

(** X21: a game shows 30 less the seconds gone by; [onFinish] is not
    called during the first 29 seconds, and is called once, when the 30th
    second fires, with the stats of the controller as the frames and
    clicks before that second left it. *)
Theorem countdown_thirty (events : list GameEvent) :
  let g := game_run rt props events in
  timeLeft (countdown g) = (30 - seconds events)%nat
  /\ ((seconds events < 30)%nat -> timer (countdown g) = true /\ finished g = [])
  /\ ((30 <= seconds events)%nat ->
      timer (countdown g) = false
      /\ finished g = [finish props (run rt props (inputs_before 30 events))]).
Proof.
  cbv zeta. unfold game_run, run.
  destruct (game_countdown events (game_start rt props) 29 eq_refl eq_refl)
    as (H1 & H2 & H3).
  split; [exact H1|]. split.
  - intros H. apply H2. lia.
  - intros H. apply H3. exact H.
Qed.

(** X22: whenever the shell is in the RESULTS state it holds stats, so
    that the results screen is rendered, and these stats carry the
    scenario and the sensitivity the shell has at that moment. *)
Theorem results_have_stats (events : list AppEvent) :
  gameState (app_run events) = RESULTS ->
  exists stats : SessionStats,
    lastStats (app_run events) = Some stats
    /\ stats_scenario stats = app_scenario (app_run events)
    /\ stats_sensitivity stats = app_sensitivity (app_run events)
    /\ stats_accuracy stats
       = (if (0 <? stats_shotsFired stats)%nat
          then (of_nat (stats_shotsHit stats) / of_nat (stats_shotsFired stats))
               * lit 100
          else lit 0)%js.
Proof.
  unfold app_run.
  assert (Inv : forall (events : list AppEvent) (a : App),
             (gameState a = RESULTS ->
              exists stats : SessionStats,
                lastStats a = Some stats
                /\ stats_scenario stats = app_scenario a
                /\ stats_sensitivity stats = app_sensitivity a
                /\ stats_accuracy stats
                   = (if (0 <? stats_shotsFired stats)%nat
                      then (of_nat (stats_shotsHit stats)
                            / of_nat (stats_shotsFired stats)) * lit 100
                      else lit 0)%js) ->
             gameState (fold_left app_step events a) = RESULTS ->
             exists stats : SessionStats,
               lastStats (fold_left app_step events a) = Some stats
               /\ stats_scenario stats = app_scenario (fold_left app_step events a)
               /\ stats_sensitivity stats
                  = app_sensitivity (fold_left app_step events a)
               /\ stats_accuracy stats
                  = (if (0 <? stats_shotsFired stats)%nat
                     then (of_nat (stats_shotsHit stats)
                           / of_nat (stats_shotsFired stats)) * lit 100
                     else lit 0)%js).
  { clear events. intros events.
    induction events as [|e events IH]; intros a Ha; cbn [fold_left].
    - exact Ha.
    - apply IH. unfold app_step.
      destruct (gameState a) eqn:G; destruct e;
        cbn [handleStartGame setSensitivity App_handleGameFinish onRestart
             onMenu gameState lastStats app_scenario app_sensitivity];
        intros Hr;
        first [ discriminate Hr
              | congruence
              | exact (Ha Hr)
              | exact (Ha eq_refl)
              | eexists; repeat split ]. }
  apply Inv. cbn. discriminate.
Qed.

End Shells.

(** ** Further properties over the real numbers *)

Section Arena.

Local Open Scope R_scope.

Ltac real_ops :=
  cbn [lit of_nat add sub mul div neg lt le eq Math_sqrt Math_acos Math_abs
       Math_PI R_number] in *;
  unfold Q2R in *; cbn [Qnum Qden] in *.

Variable rt : @Runtime R.
Variable props : @Game3DProps R.

(** The fields of a spawned target, read off the values of [Math.random]. *)
Lemma spawnTarget_fields (currentList : list TargetEntity)
  (fixedPos : option Vec3) (n : nat) :
  let t := fst (fst (spawnTarget rt props currentList fixedPos n)) in
  let k := match fixedPos with Some _ => S n | None => (n + 4)%nat end in
  position t
  = match fixedPos with
    | Some p => p
    | None => vec3 ((random_value rt (n + 1) - 0.5) * 10)
                   (1 + random_value rt (n + 2) * 3)
                   (-8 - random_value rt (n + 3) * 5)
    end
  /\ velocity t
     = (if ScenarioType_eqb (scenario props) TRACKING
        then vec3 ((if Rltb 0.5 (random_value rt k) then 1 else -1)
                   * (2 + random_value rt (S k) * 2)) 0 0
        else vec3 0 0 0)
  /\ radius t = (if ScenarioType_eqb (scenario props) FLICKING then 0.3 else 0.5)
  /\ active t = true.
Proof.
  cbv zeta. unfold spawnTarget, bind, Math_random, ret.
  replace (n + 1)%nat with (S n) by lia.
  replace (n + 2)%nat with (S (S n)) by lia.
  replace (n + 3)%nat with (S (S (S n))) by lia.
  replace (n + 4)%nat with (S (S (S (S n)))) by lia.
  destruct fixedPos as [[px py pz]|];
    destruct (ScenarioType_eqb (scenario props) TRACKING);
    destruct (ScenarioType_eqb (scenario props) FLICKING);
    cbn [fst snd position velocity radius active vec_x vec_y vec_z];
    real_ops; repeat split; try reflexivity;
    try (f_equal; lra);
    try (destruct (Rltb _ _); f_equal; lra); try lra.
Qed.

(** A property of targets that every spawn establishes and every frame
    keeps holds of all the targets of a session. *)
Lemma session_targets (Q : @TargetEntity R -> Prop) (D : R -> Prop) :
  (forall l n, Q (fst (fst (spawnTarget rt props l None n)))) ->
  (scenario props = TRACKING ->
   forall l n,
     Q (fst (fst (spawnTarget rt props l
                    (Some (vec3 (lit 0) (lit 1.5) (lit (-10)))) n)))) ->
  (scenario props = TRACKING ->
   forall delta t, D delta -> Q t -> Q (bounce delta t)) ->
  forall events,
    Forall (fun e => match e with
                     | Frame delta => D delta
                     | MouseDown _ => True
                     end) events ->
    Forall Q (targets (run rt props events)).
Proof.
  intros Hspawn Hfixed Hbounce events Hev.
  assert (Hlist : forall l fixedPos n,
             Q (fst (fst (spawnTarget rt props l fixedPos n))) ->
             Forall Q l ->
             Forall Q (snd (fst (spawnTarget rt props l fixedPos n)))).
  { intros l fixedPos n Hq Hl.
    destruct (spawnTarget_result rt props l fixedPos n) as [_ E]. rewrite E.
    apply Forall_app. split; [exact Hl|]. constructor; [exact Hq|constructor]. }
  assert (Hmany : forall k l n,
             Forall Q l -> Forall Q (fst (spawnTargets rt props k l n))).
  { induction k as [|k IH]; intros l n Hl; cbn [spawnTargets]; [exact Hl|].
    unfold bind. pose proof (Hlist l None n (Hspawn l n) Hl) as H.
    destruct (spawnTarget rt props l None n) as [p n']. apply IH. exact H. }
  assert (Hmount : Forall Q (targets (mount rt props))).
  { unfold mount.
    pose proof (Hmany 3%nat [] 0%nat (Forall_nil _)) as H3.
    pose proof (Hlist [] None 0%nat (Hspawn [] 0%nat) (Forall_nil _)) as H1.
    destruct (scenario props) eqn:E.
    - destruct (spawnTargets rt props 3 [] 0%nat) as [l n]. exact H3.
    - unfold bind, ret.
      pose proof (Hlist [] _ 0%nat (Hfixed eq_refl [] 0%nat) (Forall_nil _)) as Hf.
      destruct (spawnTarget rt props [] (Some _) 0%nat) as [p n]. exact Hf.
    - unfold bind, ret.
      destruct (spawnTarget rt props [] None 0%nat) as [p n]. exact H1. }
  unfold run. revert Hmount. generalize (mount rt props).
  induction Hev as [|e events He _ IH]; intros c Hc; cbn [fold_left];
    [exact Hc|].
  apply IH. destruct e as [delta|a]; cbn [step].
  - unfold useFrame. destruct (scenario props) eqn:E; cbn [ScenarioType_eqb];
      try exact Hc.
    cbn [targets]. apply Forall_map. eapply Forall_impl; [|exact Hc].
    intros t Ht. apply Hbounce; auto.
  - unfold handleShoot. destruct (hitFound (scan a (targets c))); [|exact Hc].
    pose proof (Hlist (filter (fun t => negb (String.eqb (id t)
                                 (hitTargetId (scan a (targets c))))) (targets c))
                      None (randomCalls c) (Hspawn _ _)) as H.
    destruct (spawnTarget rt props _ None (randomCalls c)) as [p n].
    apply H. apply Forall_forall. intros t Ht.
    apply filter_In in Ht. destruct Ht as [Ht _].
    revert t Ht. apply Forall_forall. exact Hc.
Qed.

Lemma bounce_other_fields (delta : R) (t : TargetEntity) :
  id (bounce delta t) = id t
  /\ active (bounce delta t) = active t
  /\ radius (bounce delta t) = radius t
  /\ vec_y (position (bounce delta t)) = vec_y (position t)
  /\ vec_z (position (bounce delta t)) = vec_z (position t)
  /\ vec_y (velocity (bounce delta t)) = vec_y (velocity t)
  /\ vec_z (velocity (bounce delta t)) = vec_z (velocity t).
Proof.
  unfold bounce.
  destruct (lt (lit 8) _ || lt _ (lit (-8))); cbn; repeat split.
Qed.

Lemma bounce_speed (delta : R) (t : TargetEntity) :
  Rabs (vec_x (velocity (bounce delta t))) = Rabs (vec_x (velocity t)).
Proof.
  destruct (Rle_dec (vec_x (position t) + vec_x (velocity t) * delta) 8) as [Hhi|Hhi].
  - destruct (Rle_dec (-8) (vec_x (position t) + vec_x (velocity t) * delta))
      as [Hlo|Hlo].
    + destruct (bounce_inside delta t (conj Hlo Hhi)) as [_ E]. rewrite E.
      reflexivity.
    + destruct (bounce_outside delta t) as [_ E]; [right; lra|]. rewrite E.
      apply Rabs_Ropp.
  - destruct (bounce_outside delta t) as [_ E]; [left; lra|]. rewrite E.
    apply Rabs_Ropp.
Qed.

Lemma bounce_within (delta : R) (t : TargetEntity) :
  -8 <= vec_x (position t) <= 8 ->
  -8 <= vec_x (velocity t) * delta <= 8 ->
  -8 <= vec_x (position (bounce delta t)) <= 8.
Proof.
  intros Hx Hv.
  destruct (Rle_dec (vec_x (position t) + vec_x (velocity t) * delta) 8) as [Hhi|Hhi].
  - destruct (Rle_dec (-8) (vec_x (position t) + vec_x (velocity t) * delta))
      as [Hlo|Hlo].
    + destruct (bounce_inside delta t (conj Hlo Hhi)) as [E _]. rewrite E. lra.
    + destruct (bounce_outside delta t) as [E _]; [right; lra|]. rewrite E. lra.
  - destruct (bounce_outside delta t) as [E _]; [left; lra|]. rewrite E. lra.
Qed.

Lemma spawn_in_arena (l : list TargetEntity) (fixedPos : option Vec3) (n : nat) :
  unit_interval rt ->
  fixedPos = None \/ fixedPos = Some (vec3 (lit 0) (lit 1.5) (lit (-10))) ->
  in_arena (scenario props) (fst (fst (spawnTarget rt props l fixedPos n)))
  /\ (fixedPos = None ->
      -5 <= vec_x (position (fst (fst (spawnTarget rt props l fixedPos n)))) < 5).
Proof.
  intros Hu Hpos.
  destruct (spawnTarget_fields l fixedPos n) as (Hp & Hv & Hr & Ha).
  unfold in_arena. rewrite Hp, Hv, Hr, Ha.
  pose proof (Hu (n + 1)%nat) as U1. pose proof (Hu (n + 2)%nat) as U2.
  pose proof (Hu (n + 3)%nat) as U3.
  assert (Hvel : forall k,
             2 <= Rabs ((if Rltb 0.5 (random_value rt k) then 1 else -1)
                        * (2 + random_value rt (S k) * 2)) <= 4).
  { intros k. pose proof (Hu (S k)) as U.
    destruct (Rltb 0.5 (random_value rt k)).
    - rewrite Rabs_right by lra. lra.
    - rewrite Rabs_left by lra. lra. }
  destruct Hpos as [-> | ->];
    destruct (ScenarioType_eqb (scenario props) TRACKING);
    cbn [position velocity vec_x vec_y vec_z]; real_ops;
    repeat split; try reflexivity; try lra; try apply Hvel;
    try discriminate.
Qed.

End Arena.

Section ArenaProperties.

Local Open Scope R_scope.

Variable rt : @Runtime R.
Variable props : @Game3DProps R.

(** X6: when [Math.random] stays within [0, 1), a target spawned at a
    random place lies at -5 <= x < 5, 1 <= y < 4, -13 <= z <= -8, has
    radius 0.3 in the flicking scenario and 0.5 otherwise, and moves along
    the X axis at a speed from 2 to 4, both included, in the tracking
    scenario and not at all otherwise; a fixed position is taken as it
    is. *)
Theorem spawnTarget_ranges (l : list TargetEntity) (n : nat) :
  unit_interval rt ->
  let t := fst (fst (spawnTarget rt props l None n)) in
  -5 <= vec_x (position t) < 5
  /\ 1 <= vec_y (position t) < 4
  /\ -13 <= vec_z (position t) <= -8
  /\ radius t = (if ScenarioType_eqb (scenario props) FLICKING then 0.3 else 0.5)
  /\ active t = true
  /\ vec_y (velocity t) = 0 /\ vec_z (velocity t) = 0
  /\ (if ScenarioType_eqb (scenario props) TRACKING
      then 2 <= Rabs (vec_x (velocity t)) <= 4
      else vec_x (velocity t) = 0)
  /\ forall p : Vec3,
       position (fst (fst (spawnTarget rt props l (Some p) n))) = p.
Proof.
  intros Hu. cbv zeta.
  destruct (spawn_in_arena rt props l None n Hu (or_introl eq_refl))
    as [(_ & Hy & Hz & Hr & Ha & Hvy & Hvz & Hv) Hx].
  repeat split; try assumption; try apply (Hx eq_refl);
    try apply Hy; try apply Hz.
  intros p. apply (spawnTarget_fields rt props l (Some p) n).
Qed.

(** X7: when [Math.random] stays within [0, 1) and no frame is longer
    than two seconds, every target of a session stays between the walls at
    x = -8 and x = 8, both included, keeps its height within [1, 4), its
    depth within [-13, -8] and its radius, and in the tracking scenario
    its speed stays between 2 and 4, both included. *)
Theorem targets_stay_in_arena (events : list Event) :
  unit_interval rt ->
  short_frames events ->
  Forall (in_arena (scenario props)) (targets (run rt props events)).
Proof.
  intros Hu Hev.
  apply (session_targets rt props (in_arena (scenario props))
           (fun delta => 0 <= delta <= 2)); [| | |exact Hev].
  - intros l n. apply (spawn_in_arena rt props l None n Hu). left. reflexivity.
  - intros _ l n. apply (spawn_in_arena rt props l _ n Hu). right. reflexivity.
  - intros Hsc delta t Hd (Hx & Hy & Hz & Hr & Ha & Hvy & Hvz & Hv).
    rewrite Hsc in *. cbn [ScenarioType_eqb] in *.
    destruct (bounce_other_fields delta t) as (_ & Ea & Er & Ey & Ez & Evy & Evz).
    unfold in_arena. cbn [ScenarioType_eqb].
    rewrite Ea, Er, Ey, Ez, Evy, Evz, bounce_speed.
    repeat split; try assumption; try apply Hy; try apply Hz; try apply Hv.
    + apply bounce_within; [exact Hx|].
      unfold Rabs in Hv. destruct (Rcase_abs (vec_x (velocity t))); nra.
    + apply bounce_within; [exact Hx|].
      unfold Rabs in Hv. destruct (Rcase_abs (vec_x (velocity t))); nra.
Qed.


End ArenaProperties.

Section LineOfSight.

Local Open Scope R_scope.

Ltac real_ops :=
  cbn [lit of_nat add sub mul div neg lt le eq Math_sqrt Math_acos Math_abs
       Math_PI R_number] in *;
  unfold Q2R in *; cbn [Qnum Qden] in *.

Lemma hitTest_distToCenter (a : Aim) (t : TargetEntity) :
  hitTest a t = Rltb (distToCenter a t) (radius t).
Proof. reflexivity. Qed.

(** X9: a target whose centre lies on the line of sight of a unit view
    direction is hit, whatever else is live, as soon as its radius is
    positive. *)
Theorem centred_target_is_hit (a : Aim) (t : TargetEntity) (s : R) :
  v_dot (camera_worldDirection a) (camera_worldDirection a) = 1 ->
  position t = v_add (camera_position a)
                     (v_multiplyScalar (camera_worldDirection a) s) ->
  0 < radius t ->
  hitTest a t = true /\ distToCenter a t = 0.
Proof.
  intros Hunit Hpos Hr.
  assert (D : distToCenter a t = 0).
  { unfold distToCenter. rewrite Hpos.
    destruct (camera_position a) as [ox oy oz].
    destruct (camera_worldDirection a) as [dx dy dz].
    unfold v_distanceTo, v_length, v_lengthSq, v_dot, v_sub, v_add,
      v_multiplyScalar in *.
    cbn [vec_x vec_y vec_z] in *. real_ops.
    match goal with |- sqrt ?e = 0 => replace e with 0; [apply sqrt_0|] end.
    assert (P : (ox + dx * s - ox) * dx + (oy + dy * s - oy) * dy
                + (oz + dz * s - oz) * dz = s)
      by (transitivity (s * (dx * dx + dy * dy + dz * dz));
          [ring | rewrite Hunit; ring]).
    rewrite P. ring. }
  split; [|exact D].
  rewrite hitTest_distToCenter, D. apply Rltb_true. exact Hr.
Qed.

(** X10: the hit test is that of the whole line of sight, not of the half
    in front of the camera: turning the camera to look the opposite way
    changes the outcome of the test for no target. *)
Theorem hitTest_ignores_direction_sign (a : Aim) (t : TargetEntity) :
  hitTest (reverse_aim a) t = hitTest a t
  /\ distToCenter (reverse_aim a) t = distToCenter a t.
Proof.
  assert (D : distToCenter (reverse_aim a) t = distToCenter a t).
  { unfold distToCenter, reverse_aim.
    cbn [camera_position camera_worldDirection].
    destruct (camera_position a) as [ox oy oz].
    destruct (camera_worldDirection a) as [dx dy dz].
    destruct (position t) as [px py pz].
    unfold v_distanceTo, v_length, v_lengthSq, v_dot, v_sub, v_add,
      v_multiplyScalar.
    cbn [vec_x vec_y vec_z]. real_ops. f_equal. ring. }
  split; [|exact D]. rewrite !hitTest_distToCenter, D. reflexivity.
Qed.

(** X11: the intended target is the first of the live targets at the
    least angle from the view direction: every target before it in the
    list is at a larger angle, every target after it at one at least as
    large; there is none only when no target is live. *)
Theorem intended_target_is_first_nearest (a : Aim) (ts : list TargetEntity) :
  match closestTarget (scan a ts) with
  | Some ct =>
      exists before after : list TargetEntity,
        ts = before ++ ct :: after
        /\ Forall (fun t => angleOf a ct < angleOf a t) before
        /\ Forall (fun t => angleOf a ct <= angleOf a t) after
  | None => ts = []
  end.
Proof.
  induction ts as [|t ts IH] using rev_ind.
  - reflexivity.
  - rewrite scan_snoc.
    pose proof (scan_step_closest a (scan a ts) t) as E.
    pose proof (scan_intended a ts) as I.
    destruct (closestTarget (scan a ts)) as [ct|].
    + destruct I as [_ Hmin]. rewrite Hmin in E.
      destruct IH as (before & after & Hts & Hb & Ha).
      cbn [lt R_number] in E. unfold Rltb in E.
      destruct (Rlt_dec (angleOf a t) (angleOf a ct)) as [Hlt|Hge];
        inversion E as [[Ec Em]]; rewrite Ec.
      * exists ts, []. repeat split; [|constructor].
        rewrite Hts. apply Forall_app. split.
        -- eapply Forall_impl; [|exact Hb]. cbn beta. intros u Hu. lra.
        -- constructor; [exact Hlt|].
           eapply Forall_impl; [|exact Ha]. cbn beta. intros u Hu. lra.
      * exists before, (after ++ [t]). repeat split.
        -- rewrite Hts, <- app_assoc. reflexivity.
        -- exact Hb.
        -- apply Forall_app. split; [exact Ha|].
           constructor; [lra|constructor].
    + destruct I as [Hnil Hmin]. rewrite Hmin in E.
      inversion E as [[Ec Em]]. rewrite Ec. subst ts.
      exists [], []. repeat split; constructor.
Qed.

(** X12: with a camera as three.js hands it over and the intended target
    not behind it, the plane intersection succeeds and the distance
    recorded for a miss is the distance from the target's centre to the
    line of sight that the hit test compared with the radius; when the
    target was missed it is at least the radius. *)
Theorem miss_distance_is_hit_test_distance (a : Aim) (ct : TargetEntity) :
  standard_camera a ->
  0 <= v_dot (v_sub (position ct) (camera_position a)) (camera_worldDirection a) ->
  exists x y : R,
    missRecord a ct
    = Some (mkShot (now a) false None (Some x) (Some y)
                   (Some (distToCenter a ct)) (Some (vec_x (velocity ct))))
    /\ (hitTest a ct = false -> radius ct <= distToCenter a ct).
Proof.
  intros [Hunit Hray] Hfront.
  assert (P : intersectPlane (raycaster_ray a)
                (setFromNormalAndCoplanarPoint (camera_worldDirection a)
                                               (position ct))
                (vec3 (lit 0) (lit 0) (lit 0))
              = (Some (v_add (camera_position a)
                         (v_multiplyScalar (camera_worldDirection a)
                            (v_dot (v_sub (position ct) (camera_position a))
                                   (camera_worldDirection a)))),
                 v_add (camera_position a)
                   (v_multiplyScalar (camera_worldDirection a)
                      (v_dot (v_sub (position ct) (camera_position a))
                             (camera_worldDirection a))))).
  { rewrite Hray.
    unfold intersectPlane, distanceToPlane, setFromNormalAndCoplanarPoint.
    cbn [normal constant direction origin].
    rewrite Hunit.
    assert (T : (- (v_dot (camera_position a) (camera_worldDirection a)
                    + - v_dot (position ct) (camera_worldDirection a)) / 1)%js
                = v_dot (v_sub (position ct) (camera_position a))
                        (camera_worldDirection a)).
    { destruct (camera_position a) as [ox oy oz].
      destruct (camera_worldDirection a) as [dx dy dz].
      destruct (position ct) as [px py pz].
      unfold v_dot, v_sub. cbn [vec_x vec_y vec_z]. real_ops. field. }
    cbv zeta. rewrite T.
    cbn [eq le lit R_number]. rewrite Reqb_false by (unfold Q2R; cbn; lra).
    unfold Rleb.
    destruct (Rle_dec (Q2R 0) _) as [_|Hn]; [reflexivity|].
    exfalso. apply Hn. unfold Q2R. cbn [Qnum Qden]. lra. }
  unfold missRecord, truthy_object. rewrite P. cbn [snd].
  do 2 eexists. split; [reflexivity|].
  intros Hmiss. rewrite hitTest_distToCenter in Hmiss.
  unfold Rltb in Hmiss. destruct (Rlt_dec _ _); [discriminate|]. lra.
Qed.

(** The ray that [setFromCamera] aims through the centre of the screen
    runs along the view direction, which [handleShoot] also takes for the
    normal of the projection plane.  With such a camera the ray is never
    parallel to the plane, and the plane intersection fails when, and
    only when, the plane through the target lies behind the camera. *)
Lemma view_ray_meets_plane (a : Aim) (ct : TargetEntity) :
  standard_camera a ->
  v_dot (normal (setFromNormalAndCoplanarPoint (camera_worldDirection a)
                                               (position ct)))
        (direction (raycaster_ray a)) = 1
  /\ (fst (intersectPlane (raycaster_ray a)
            (setFromNormalAndCoplanarPoint (camera_worldDirection a)
                                           (position ct))
            (vec3 (lit 0) (lit 0) (lit 0))) = None
      <-> v_dot (v_sub (position ct) (camera_position a))
                (camera_worldDirection a) < 0).
Proof.
  intros [Hunit Hray]. rewrite Hray.
  unfold intersectPlane, distanceToPlane, setFromNormalAndCoplanarPoint.
  cbn [normal constant direction origin]. split; [exact Hunit|].
  rewrite Hunit.
  assert (T : (- (v_dot (camera_position a) (camera_worldDirection a)
                  + - v_dot (position ct) (camera_worldDirection a)) / 1)%js
              = v_dot (v_sub (position ct) (camera_position a))
                      (camera_worldDirection a)).
  { destruct (camera_position a) as [ox oy oz].
    destruct (camera_worldDirection a) as [dx dy dz].
    destruct (position ct) as [px py pz].
    unfold v_dot, v_sub. cbn [vec_x vec_y vec_z]. real_ops. field. }
  cbv zeta. rewrite T.
  cbn [eq le lit R_number]. rewrite Reqb_false by (unfold Q2R; cbn; lra).
  unfold Rleb.
  destruct (Rle_dec (Q2R 0) _) as [Hle|Hn]; cbn [fst];
    unfold Q2R in *; cbn [Qnum Qden] in *; split; intros H;
    try discriminate; try reflexivity; lra.
Qed.

End LineOfSight.

Section Verdicts.

Local Open Scope R_scope.

Ltac real_ops :=
  cbn [lit of_nat add sub mul div neg lt le eq Math_sqrt Math_acos Math_abs
       Math_PI R_number] in *;
  unfold Q2R in *; cbn [Qnum Qden] in *.

Lemma filter_disjoint_length (A : Type) (f g : A -> bool) (l : list A) :
  (forall x, f x = true -> g x = false) ->
  (List.length (filter f l) + List.length (filter g l) <= List.length l)%nat.
Proof.
  intros H. induction l as [|x l IH]; cbn [filter List.length]; [lia|].
  destruct (f x) eqn:F.
  - rewrite (H x F). cbn [List.length]. lia.
  - destruct (g x); cbn [List.length]; lia.
Qed.

Lemma overshoot_excludes_undershoot (m : @ShotData R) :
  is_overshoot m = true -> is_undershoot m = false.
Proof.
  rewrite is_overshoot_sign_matches, is_undershoot_sign_opposes.
  unfold sign_matches, sign_opposes, Rltb.
  destruct (targetVelocityX m) as [v|]; [|discriminate].
  destruct (relativeX m) as [x|]; [|discriminate].
  destruct (Rlt_dec 0 v), (Rlt_dec 0 x), (Rlt_dec v 0), (Rlt_dec x 0);
    cbn; try reflexivity; try discriminate; lra.
Qed.

(** X16: of the misses of a log at most one of left and right, and at
    most one of top and bottom, counts each miss, and at most one of
    overshoot and undershoot; outside the tracking scenario no overshoot
    or undershoot is counted at all. *)
Theorem analysis_counts_bounded (stats : @SessionStats R) :
  let misses := filter (fun s => negb (hit s)) (stats_missData stats) in
  (left (analysis stats) + right (analysis stats) <= List.length misses)%nat
  /\ (top (analysis stats) + bottom (analysis stats) <= List.length misses)%nat
  /\ (overshoots (analysis stats) + undershoots (analysis stats)
      <= List.length misses)%nat
  /\ (stats_scenario stats = TRACKING
      \/ (overshoots (analysis stats) = 0%nat
          /\ undershoots (analysis stats) = 0%nat)).
Proof.
  cbv zeta. unfold analysis.
  destruct (filter (fun s => negb (hit s)) (stats_missData stats)) as [|m ms].
  - cbn. repeat split; try lia.
  - cbn [List.length Nat.eqb left right top bottom overshoots undershoots].
    set (misses := m :: ms).
    change (S (List.length ms)) with (List.length misses).
    repeat split.
    + apply filter_disjoint_length. intros x. real_ops. unfold Rltb.
      destruct (Rlt_dec _ _), (Rlt_dec _ _); try reflexivity; try discriminate; lra.
    + apply filter_disjoint_length. intros x. real_ops. unfold Rltb.
      destruct (Rlt_dec _ _), (Rlt_dec _ _); try reflexivity; try discriminate; lra.
    + destruct (ScenarioType_eqb (stats_scenario stats) TRACKING); [|cbn; lia].
      pose proof (filter_disjoint_length _ is_overshoot is_undershoot
                    (filter (fun m0 => defined (targetVelocityX m0)) misses)
                    overshoot_excludes_undershoot).
      pose proof (filter_length_le (fun m0 : @ShotData R => defined (targetVelocityX m0))
                    misses).
      lia.
    + destruct (stats_scenario stats); cbn; auto.
Qed.

Lemma bias_decides_direction (stats : @SessionStats R) :
  stats_scenario stats <> TRACKING ->
  (List.length (filter (fun s => negb (hit s)) (stats_missData stats))
   < 2 * abs_diff (left (analysis stats)) (right (analysis stats)))%nat ->
  recommendation (analysis stats)
  = if (right (analysis stats) <? left (analysis stats))%nat
    then msg_left else msg_right.
Proof.
  intros Hsc. unfold analysis.
  assert (Hsc' : ScenarioType_eqb (stats_scenario stats) TRACKING = false)
    by (destruct (stats_scenario stats); try reflexivity; contradiction).
  rewrite Hsc'.
  destruct (filter (fun s => negb (hit s)) (stats_missData stats)) as [|m ms].
  - cbn. lia.
  - cbn [List.length Nat.eqb left right recommendation].
    set (misses := m :: ms).
    change (S (List.length ms)) with (List.length misses).
    intros H. apply lt_INR in H. rewrite mult_INR in H.
    replace (INR 2) with 2 in H by (simpl; lra).
    real_ops. rewrite Rltb_true by lra. reflexivity.
Qed.

(** X17: outside the tracking scenario, when the misses to the left
    outnumber the misses to the right by more than half the number of all
    misses the recommendation is the message about missing to the left,
    and the one about missing to the right in the mirrored case. *)
Theorem horizontal_bias_message (stats : @SessionStats R) :
  stats_scenario stats <> TRACKING ->
  let total :=
    List.length (filter (fun s => negb (hit s)) (stats_missData stats)) in
  ((total < 2 * (left (analysis stats) - right (analysis stats)))%nat ->
   recommendation (analysis stats) = msg_left)
  /\ ((total < 2 * (right (analysis stats) - left (analysis stats)))%nat ->
      recommendation (analysis stats) = msg_right).
Proof.
  intros Hsc. cbv zeta. split; intros H.
  - rewrite (bias_decides_direction stats Hsc) by (unfold abs_diff; lia).
    destruct (Nat.ltb_spec (right (analysis stats)) (left (analysis stats)));
      [reflexivity | lia].
  - rewrite (bias_decides_direction stats Hsc) by (unfold abs_diff; lia).
    destruct (Nat.ltb_spec (right (analysis stats)) (left (analysis stats)));
      [lia | reflexivity].
Qed.

Lemma spread_of_offsetless (l : list (@ShotData R)) (acc : R) :
  Forall offsetless l ->
  fold_left (fun acc m => (acc + Math_abs (orZero (relativeX m)))%js) l acc = acc.
Proof.
  intros H. revert acc. induction H as [|m l (Hx & _) _ IH]; intros acc;
    cbn [fold_left]; [reflexivity|].
  rewrite IH, Hx. cbn [orZero]. real_ops. replace (0 * / 1) with 0 by lra.
  rewrite Rabs_R0. lra.
Qed.

(** X18: when none of the misses of a log carries an offset, none is
    counted in any direction and the recommendation is the "balanced"
    message, in every scenario. *)
Theorem offsetless_misses_balanced (stats : @SessionStats R) :
  filter (fun s => negb (hit s)) (stats_missData stats) <> [] ->
  Forall offsetless (filter (fun s => negb (hit s)) (stats_missData stats)) ->
  analysis stats = mkAnalysis 0 0 0 0 0 0 msg_balanced.
Proof.
  intros Hne Hall. unfold analysis.
  destruct (filter (fun s => negb (hit s)) (stats_missData stats)) as [|m ms];
    [contradiction|].
  cbn [List.length Nat.eqb].
  set (misses := m :: ms) in *.
  change (S (List.length ms)) with (List.length misses).
  assert (Z0 : forall f : @ShotData R -> bool,
             (forall r, offsetless r -> f r = false) -> filter f misses = []).
  { intros f Hf. apply filter_none. eapply Forall_impl; [|exact Hall].
    intros r Hr. apply Hf. exact Hr. }
  rewrite !Z0;
    try solve [ intros r (Hx & Hy & Hv); cbn beta; rewrite ?Hx, ?Hy, ?Hv;
                cbn [orZero defined]; real_ops; try reflexivity;
                apply Rltb_false; lra ].
  rewrite (spread_of_offsetless misses _ Hall).
  pose proof (pos_INR (List.length misses)) as Hpos.
  destruct (ScenarioType_eqb (stats_scenario stats) TRACKING);
    cbn [filter List.length abs_diff Z.of_nat Z.sub Z.abs_nat Z.opp Z.add
         Z.to_nat];
    real_ops; cbn [INR];
    repeat match goal with
           | |- context [Rltb ?a ?b] =>
               rewrite (Rltb_false a b) by (unfold Rdiv; lra)
           end;
    reflexivity.
Qed.

End Verdicts.

Section Accuracy.

Local Open Scope R_scope.

Variable rt : @Runtime R.
Variable props : @Game3DProps R.

(** X20: the accuracy reported at the end of a session lies between 0
    and 100; it is 0 when no shot was fired and 100 when every shot fired
    was a hit. *)
Theorem session_accuracy_range (events : list Event) :
  let stats := finish props (run rt props events) in
  0 <= stats_accuracy stats <= 100
  /\ (stats_shotsFired stats = 0%nat -> stats_accuracy stats = 0)
  /\ ((0 < stats_shotsFired stats)%nat ->
      stats_shotsHit stats = stats_shotsFired stats ->
      stats_accuracy stats = 100).
Proof.
  cbv zeta. destruct (run_log_invariant rt props events) as (Hs & Hn & _).
  pose proof (filter_length_le (@hit R) (shotDataRef (run rt props events))) as Hle.
  rewrite <- Hs, <- Hn in Hle. clear Hs Hn.
  unfold finish, handleGameFinish.
  cbn [stats_accuracy stats_shotsFired stats_shotsHit].
  set (s := scoreRef (run rt props events)) in *.
  set (f := shotsFiredRef (run rt props events)) in *.
  cbn [lit of_nat mul div R_number]. unfold Q2R. cbn [Qnum Qden].
  pose proof (pos_INR s) as Hs0. apply le_INR in Hle.
  destruct (Nat.ltb_spec 0 f) as [Hf|Hf].
  - apply lt_INR in Hf. cbn [INR] in Hf.
    assert (Hq : 0 <= INR s / INR f <= 1).
    { split.
      - apply Rmult_le_pos; [exact Hs0|].
        apply Rlt_le. apply Rinv_0_lt_compat. exact Hf.
      - apply (Rmult_le_reg_r (INR f)); [exact Hf|].
        unfold Rdiv. rewrite Rmult_assoc, Rinv_l by lra. lra. }
    repeat split; try lra.
    + intros E. rewrite E in Hf. cbn [INR] in Hf. lra.
    + intros _ E. rewrite E. unfold Rdiv. rewrite Rinv_r by lra. lra.
  - repeat split; try lra. intros H. lia.
Qed.

End Accuracy.

(** ** The further properties at concrete inputs *)

Section Instances.

Local Open Scope R_scope.

Ltac real_ops :=
  cbn [lit of_nat add sub mul div neg lt le eq Math_sqrt Math_acos Math_abs
       Math_PI R_number] in *;
  unfold Q2R in *; cbn [Qnum Qden] in *.

Lemma two_in_line_hit : hitFound (scan aim_ahead (targets two_in_line)) = true.
Proof.
  pose proof (scan_last_hit aim_ahead (targets two_in_line)) as H.
  cbn [targets two_in_line filter] in H.
  rewrite hitTest_near, hitTest_far in H. apply H.
Qed.

Lemma two_in_line_distinct : NoDup (map (@id R) (targets two_in_line)).
Proof.
  cbn. repeat constructor; cbn; intuition discriminate.
Qed.

Lemma repeating_unit : unit_interval repeating_runtime.
Proof. intros n. cbn. lra. Qed.

Lemma hit_replaces_live_target_example :
  exists t : TargetEntity,
    In t (targets two_in_line)
    /\ hitTest aim_ahead t = true
    /\ shotDataRef (handleShoot repeating_runtime gridshot_game
                                aim_ahead two_in_line)
       = shotDataRef two_in_line
         ++ [mkShot (now aim_ahead) true (Some (id t)) None None None None]
    /\ scoreRef (handleShoot repeating_runtime gridshot_game
                             aim_ahead two_in_line)
       = S (scoreRef two_in_line)
    /\ (let survivors :=
          filter (fun u => negb (String.eqb (id u) (id t)))
                 (targets two_in_line) in
        let spawned :=
          spawnTarget repeating_runtime gridshot_game survivors None
                      (randomCalls two_in_line) in
        targets (handleShoot repeating_runtime gridshot_game
                             aim_ahead two_in_line)
        = survivors ++ [fst (fst spawned)]
        /\ id (fst (fst spawned))
           = substring 2 9 (toString36 repeating_runtime
                              (random_value repeating_runtime
                                            (randomCalls two_in_line)))
        /\ randomCalls (handleShoot repeating_runtime gridshot_game
                                    aim_ahead two_in_line)
           = snd spawned)
    /\ (List.length (targets (handleShoot repeating_runtime gridshot_game
                                          aim_ahead two_in_line))
        <= List.length (targets two_in_line))%nat.
Proof.
  exact (hit_replaces_live_target repeating_runtime gridshot_game
           aim_ahead two_in_line two_in_line_hit).
Defined.

Lemma hit_keeps_pool_size_example :
  List.length (targets (handleShoot repeating_runtime gridshot_game
                                    aim_ahead two_in_line))
  = List.length (targets two_in_line).
Proof.
  exact (hit_keeps_pool_size repeating_runtime gridshot_game
           aim_ahead two_in_line two_in_line_distinct two_in_line_hit).
Defined.

Lemma spawnTarget_ranges_example :
  -5 <= vec_x (position (fst (fst (spawnTarget repeating_runtime
                                     tracking_game [] None 0%nat)))) < 5
  /\ 2 <= Rabs (vec_x (velocity (fst (fst (spawnTarget repeating_runtime
                                            tracking_game [] None 0%nat)))))
     <= 4.
Proof.
  pose proof (spawnTarget_ranges repeating_runtime tracking_game [] 0%nat
                repeating_unit) as H.
  cbv zeta in H. cbn [scenario ScenarioType_eqb tracking_game] in H.
  split; apply H.
Defined.

Lemma targets_stay_in_arena_example :
  Forall (in_arena TRACKING)
         (targets (run repeating_runtime tracking_game short_session)).
Proof.
  apply (targets_stay_in_arena repeating_runtime tracking_game
           short_session repeating_unit).
  unfold short_session, short_frames. repeat constructor; lra.
Defined.


Lemma centred_target_is_hit_example :
  hitTest aim_ahead target_near = true /\ distToCenter aim_ahead target_near = 0.
Proof.
  apply (centred_target_is_hit aim_ahead target_near 10).
  - unfold v_dot. cbn. lra.
  - unfold v_add, v_multiplyScalar. cbn. f_equal; lra.
  - cbn. lra.
Defined.

Lemma miss_distance_example :
  exists x y : R,
    missRecord aim_ahead target_aside
    = Some (mkShot (now aim_ahead) false None (Some x) (Some y)
                   (Some (distToCenter aim_ahead target_aside))
                   (Some (vec_x (velocity target_aside))))
    /\ (hitTest aim_ahead target_aside = false ->
        radius target_aside <= distToCenter aim_ahead target_aside).
Proof.
  apply (miss_distance_is_hit_test_distance aim_ahead target_aside).
  - split; [unfold v_dot; cbn; lra | reflexivity].
  - unfold v_dot, v_sub. cbn. lra.
Defined.

Lemma recommendation_cases_example :
  In (recommendation (analysis five_misses_ahead))
     [msg_overshoot; msg_undershoot; msg_balanced].
Proof.
  apply (proj2 (recommendation_cases five_misses_ahead)).
  cbn. discriminate.
Defined.

Lemma ten_misses_left_counts :
  left (analysis ten_misses_left) = 8%nat
  /\ right (analysis ten_misses_left) = 2%nat.
Proof.
  unfold analysis, ten_misses_left.
  cbn [stats_missData filter hit negb miss_at List.length Nat.eqb left right
       relativeX orZero].
  real_ops.
  repeat first [rewrite Rltb_true by lra | rewrite Rltb_false by lra].
  cbn. split; reflexivity.
Qed.

Lemma horizontal_bias_message_example :
  recommendation (analysis ten_misses_left) = msg_left.
Proof.
  assert (H : stats_scenario ten_misses_left <> TRACKING) by discriminate.
  apply (proj1 (horizontal_bias_message ten_misses_left H)).
  destruct ten_misses_left_counts as [Hl Hr]. rewrite Hl, Hr. cbn. lia.
Defined.

Lemma offsetless_misses_balanced_example :
  analysis one_blind_miss = mkAnalysis 0 0 0 0 0 0 msg_balanced.
Proof.
  apply (offsetless_misses_balanced one_blind_miss).
  - cbn. discriminate.
  - cbn. repeat constructor.
Defined.

Lemma session_accuracy_range_example :
  stats_accuracy (finish gridshot_game
                         (run repeating_runtime gridshot_game [])) = 0.
Proof.
  apply (session_accuracy_range repeating_runtime gridshot_game []).
  reflexivity.
Defined.

Lemma countdown_thirty_example :
  timer (countdown (game_run repeating_runtime gridshot_game full_game))
  = false
  /\ finished (game_run repeating_runtime gridshot_game full_game)
     = [finish gridshot_game
               (run repeating_runtime gridshot_game
                    (inputs_before 30 full_game))].
Proof.
  apply (countdown_thirty repeating_runtime gridshot_game full_game).
  cbn. lia.
Defined.

Lemma results_have_stats_example :
  exists stats : SessionStats,
    lastStats (app_run one_round) = Some stats
    /\ stats_scenario stats = app_scenario (app_run one_round)
    /\ stats_sensitivity stats = app_sensitivity (app_run one_round)
    /\ stats_accuracy stats
       = (if (0 <? stats_shotsFired stats)%nat
          then (of_nat (stats_shotsHit stats) / of_nat (stats_shotsFired stats))
               * lit 100
          else lit 0)%js.
Proof.
  apply (results_have_stats one_round). reflexivity.
Defined.

End Instances.

Section Mirror.

Local Open Scope R_scope.

Ltac real_ops :=
  cbn [lit of_nat add sub mul div neg lt le eq Math_sqrt Math_acos Math_abs
       Math_PI R_number] in *;
  unfold Q2R in *; cbn [Qnum Qden] in *.

Lemma filter_map_swap (A B : Type) (f : B -> bool) (g : A -> B) (l : list A) :
  filter f (map g l) = map g (filter (fun x => f (g x)) l).
Proof.
  induction l as [|x l IH]; cbn [map filter]; [reflexivity|].
  destruct (f (g x)); cbn [map]; rewrite IH; reflexivity.
Qed.

Lemma Rltb_opp (x : R) : Rltb (- x) 0 = Rltb 0 x /\ Rltb 0 (- x) = Rltb x 0.
Proof.
  unfold Rltb.
  destruct (Rlt_dec (- x) 0), (Rlt_dec 0 x), (Rlt_dec 0 (- x)), (Rlt_dec x 0);
    split; try reflexivity; lra.
Qed.

(** The counts of a list of misses seen in a mirror. *)
Lemma mirror_counts (l : list (@ShotData R)) :
  List.length (filter (fun m => (orZero (relativeX m) <? lit 0)%js)
                      (map mirror_shot l))
  = List.length (filter (fun m => (orZero (relativeX m) >? lit 0)%js) l)
  /\ List.length (filter (fun m => (orZero (relativeX m) >? lit 0)%js)
                         (map mirror_shot l))
     = List.length (filter (fun m => (orZero (relativeX m) <? lit 0)%js) l)
  /\ List.length (filter (fun m => (orZero (relativeY m) >? lit 0)%js)
                         (map mirror_shot l))
     = List.length (filter (fun m => (orZero (relativeY m) >? lit 0)%js) l)
  /\ List.length (filter (fun m => (orZero (relativeY m) <? lit 0)%js)
                         (map mirror_shot l))
     = List.length (filter (fun m => (orZero (relativeY m) <? lit 0)%js) l)
  /\ List.length (filter is_overshoot
                    (filter (fun m => defined (targetVelocityX m))
                            (map mirror_shot l)))
     = List.length (filter is_undershoot
                      (filter (fun m => defined (targetVelocityX m)) l))
  /\ List.length (filter is_undershoot
                    (filter (fun m => defined (targetVelocityX m))
                            (map mirror_shot l)))
     = List.length (filter is_overshoot
                      (filter (fun m => defined (targetVelocityX m)) l)).
Proof.
  assert (X : forall m : @ShotData R,
             Rltb (orZero (relativeX (mirror_shot m))) 0
             = Rltb 0 (orZero (relativeX m))
             /\ Rltb 0 (orZero (relativeX (mirror_shot m)))
                = Rltb (orZero (relativeX m)) 0).
  { intros m. unfold mirror_shot. cbn [relativeX].
    destruct (relativeX m) as [x|]; cbn [option_map orZero].
    - apply Rltb_opp.
    - real_ops. unfold Rltb.
      destruct (Rlt_dec (0 * / 1) 0), (Rlt_dec 0 (0 * / 1));
        split; try reflexivity; lra. }
  assert (O : forall m : @ShotData R,
             is_overshoot (mirror_shot m) = is_undershoot m
             /\ is_undershoot (mirror_shot m) = is_overshoot m).
  { intros m. unfold is_overshoot, is_undershoot, positive, negative, mirror_shot.
    cbn [relativeX targetVelocityX].
    destruct (relativeX m) as [x|]; cbn [option_map]; [|split; reflexivity].
    real_ops. replace (0 * / 1) with 0 by lra.
    destruct (Rltb_opp x) as [E1 E2]. rewrite E1, E2. split; reflexivity. }
  rewrite !filter_map_swap, !length_map.
  repeat split.
  - f_equal. apply filter_ext. intros m. real_ops.
    replace (0 * / 1) with 0 by lra. apply X.
  - f_equal. apply filter_ext. intros m. real_ops.
    replace (0 * / 1) with 0 by lra. apply X.
  - f_equal. apply filter_ext. intros m. apply O.
  - f_equal. apply filter_ext. intros m. apply O.
Qed.

(** X19: seen in a mirror, that is with every horizontal offset negated,
    a log gets the left and right counts exchanged and the overshoot and
    undershoot counts exchanged, while the top and bottom counts stay. *)
Theorem analysis_mirror (stats : @SessionStats R) :
  left (analysis (mirror_stats stats)) = right (analysis stats)
  /\ right (analysis (mirror_stats stats)) = left (analysis stats)
  /\ top (analysis (mirror_stats stats)) = top (analysis stats)
  /\ bottom (analysis (mirror_stats stats)) = bottom (analysis stats)
  /\ overshoots (analysis (mirror_stats stats)) = undershoots (analysis stats)
  /\ undershoots (analysis (mirror_stats stats)) = overshoots (analysis stats).
Proof.
  unfold analysis, mirror_stats. cbn [stats_missData stats_scenario].
  rewrite filter_map_swap. cbn [mirror_shot hit].
  destruct (filter (fun s => negb (hit s)) (stats_missData stats)) as [|m ms].
  - cbn. repeat split.
  - set (misses := m :: ms).
    destruct (mirror_counts misses) as (E1 & E2 & E3 & E4 & E5 & E6).
    change (map mirror_shot misses) with (mirror_shot m :: map mirror_shot ms)
      in *.
    cbn [map List.length Nat.eqb left right top bottom overshoots undershoots].
    destruct (ScenarioType_eqb (stats_scenario stats) TRACKING);
      repeat split; assumption || reflexivity.
Qed.

End Mirror.
